(** * The front end's service layer: lib/api.ts and lib/activity-log.ts

    A shallow embedding of the TypeScript service layer of the document
    question-answering front end: the REST client ([queryRAG],
    [autoDetectSecurity], [normalizeSystemConfig]) and the query-activity
    log kept in the browser's localStorage ([getQueryActivity],
    [appendQueryActivity], [clearQueryActivity],
    [summarizeQueryActivity]).

    Conventions of the embedding
    - a JavaScript string is a [string] holding its UTF-8 bytes;
    - a JavaScript number is a [number]: an exact rational, or one of
      NaN, +Infinity, -Infinity (binary64 rounding, overflow and the sign
      of zero are not represented);
    - a text handed to or produced by the JSON codec is a [text]: it is
      represented by what [JSON.parse] makes of it;
    - localStorage is a finite map from keys to texts, without quota. *)

From Stdlib Require Import ZArith QArith Qround Ascii String List Bool Lia Lqa.
From stdpp Require Import base option list gmap strings sorting.
Import ListNotations.

Set Warnings "-register-all".
Local Open Scope string_scope.
Local Open Scope list_scope.

(* ===================================================================== *)
(** ** JavaScript values                                                  *)
(* ===================================================================== *)

Module JS.

(** Numbers: finite values as rationals, and the three special values. *)
Inductive number : Type :=
| Num (q : Q)
| NaN
| PosInfinity
| NegInfinity.

(** [Number.isFinite]. *)
Definition isFinite (n : number) : bool :=
  match n with Num _ => true | _ => false end.

(** [a + b]. *)
Definition add (a b : number) : number :=
  match a, b with
  | Num x, Num y => Num (x + y)
  | NaN, _ | _, NaN => NaN
  | PosInfinity, NegInfinity | NegInfinity, PosInfinity => NaN
  | PosInfinity, _ | _, PosInfinity => PosInfinity
  | NegInfinity, _ | _, NegInfinity => NegInfinity
  end.

Definition sign_infinity (negative : bool) : number :=
  if negative then NegInfinity else PosInfinity.

Definition is_negative (q : Q) : bool := (Qnum q <? 0)%Z.

(** [a / b]. *)
Definition div (a b : number) : number :=
  match a, b with
  | NaN, _ | _, NaN => NaN
  | Num x, Num y =>
      if Qeq_bool y 0 then
        if Qeq_bool x 0 then NaN else sign_infinity (is_negative x)
      else Num (x / y)
  | Num _, _ => Num 0
  | PosInfinity, Num y => sign_infinity (is_negative y)
  | NegInfinity, Num y => sign_infinity (negb (is_negative y))
  | _, _ => NaN
  end.

(** [Math.round]: the nearest integer, halves going up. *)
Definition Math_round (a : number) : number :=
  match a with
  | Num x => Num (inject_Z (Qfloor (x + (1 # 2))))
  | _ => a
  end.

(** The number a length or a count is. *)
Definition of_nat (n : nat) : number := Num (inject_Z (Z.of_nat n)).

(** A JSON document, as [JSON.parse] delivers it and the wire carries it. *)
Inductive json : Type :=
| JNull
| JBool (b : bool)
| JNumber (q : Q)
| JString (s : string)
| JArray (items : list json)
| JObject (members : list (string * json)).

(** A run-time value. Objects list their own enumerable properties in
    creation order; the first binding of a key is the live one. *)
Inductive value : Type :=
| VUndefined
| VNull
| VBool (b : bool)
| VNumber (n : number)
| VString (s : string)
| VArray (items : list value)
| VObject (props : list (string * value)).

(** An induction principle that reaches inside arrays and objects. *)
Section json_ind_deep.
Variable P : json -> Prop.
Hypothesis Hnull : P JNull.
Hypothesis Hbool : forall b, P (JBool b).
Hypothesis Hnum : forall q, P (JNumber q).
Hypothesis Hstr : forall s, P (JString s).
Hypothesis Harr : forall l, Forall P l -> P (JArray l).
Hypothesis Hobj : forall m, Forall (fun kv => P (snd kv)) m -> P (JObject m).

Fixpoint json_ind_deep (j : json) : P j :=
  match j with
  | JNull => Hnull
  | JBool b => Hbool b
  | JNumber q => Hnum q
  | JString s => Hstr s
  | JArray l =>
      Harr l ((fix go (l : list json) : Forall P l :=
                 match l with
                 | [] => List.Forall_nil _
                 | x :: r => List.Forall_cons _ x r (json_ind_deep x) (go r)
                 end) l)
  | JObject m =>
      Hobj m ((fix go (m : list (string * json))
                 : Forall (fun kv => P (snd kv)) m :=
                 match m with
                 | [] => List.Forall_nil _
                 | kv :: r =>
                     List.Forall_cons _ kv r (json_ind_deep (snd kv)) (go r)
                 end) m)
  end.
End json_ind_deep.

(** [typeof v]. *)
Definition typeof (v : value) : string :=
  match v with
  | VUndefined => "undefined"
  | VNull => "object"
  | VBool _ => "boolean"
  | VNumber _ => "number"
  | VString _ => "string"
  | VArray _ => "object"
  | VObject _ => "object"
  end.

(** [ToBoolean]: what [!!v] and [if (v)] test. *)
Definition truthy (v : value) : bool :=
  match v with
  | VUndefined | VNull => false
  | VBool b => b
  | VNumber (Num q) => negb (Qeq_bool q 0)
  | VNumber NaN => false
  | VNumber _ => true
  | VString s => negb (String.eqb s "")
  | VArray _ | VObject _ => true
  end.

(** [Array.isArray]. *)
Definition isArray (v : value) : bool :=
  match v with VArray _ => true | _ => false end.

(** Property lookup in a property list. *)
Fixpoint lookup_prop (k : string) (props : list (string * value)) : value :=
  match props with
  | [] => VUndefined
  | (k', v) :: rest => if String.eqb k k' then v else lookup_prop k rest
  end.

(** [o.k] for the data properties this module reads. The names read here
    are never [length] nor an index, so an array answers [undefined]. *)
Definition get (o : value) (k : string) : value :=
  match o with
  | VObject props => lookup_prop k props
  | _ => VUndefined
  end.

(** *** Strings: code points and [String.prototype.trim] *)

Definition byte_of (a : ascii) : N := N_of_ascii a.

(** UTF-8 decoding; a byte that starts no well-formed sequence stands for
    itself. *)
Fixpoint code_points (s : string) : list N :=
  match s with
  | EmptyString => []
  | String a r =>
      let b := byte_of a in
      if (b <? 128)%N then b :: code_points r
      else if ((192 <=? b) && (b <? 224))%N then
        match r with
        | String a1 r1 =>
            ((b - 192) * 64 + (byte_of a1 - 128))%N :: code_points r1
        | _ => b :: code_points r
        end
      else if ((224 <=? b) && (b <? 240))%N then
        match r with
        | String a1 (String a2 r2) =>
            ((b - 224) * 4096 + (byte_of a1 - 128) * 64
             + (byte_of a2 - 128))%N :: code_points r2
        | _ => b :: code_points r
        end
      else if ((240 <=? b) && (b <? 248))%N then
        match r with
        | String a1 (String a2 (String a3 r3)) =>
            ((b - 240) * 262144 + (byte_of a1 - 128) * 4096
             + (byte_of a2 - 128) * 64 + (byte_of a3 - 128))%N
              :: code_points r3
        | _ => b :: code_points r
        end
      else b :: code_points r
  end.

(** ECMAScript WhiteSpace and LineTerminator code points. *)
Definition is_white_space (c : N) : bool :=
  ((c =? 9) || (c =? 10) || (c =? 11) || (c =? 12) || (c =? 13)
   || (c =? 32) || (c =? 160) || (c =? 5760)
   || ((8192 <=? c) && (c <=? 8202))
   || (c =? 8232) || (c =? 8233) || (c =? 8239) || (c =? 8287)
   || (c =? 12288) || (c =? 65279))%N.

Fixpoint drop_white (l : list N) : list N :=
  match l with
  | c :: r => if is_white_space c then drop_white r else l
  | [] => []
  end.

(** [s.trim()], on code points. *)
Definition trim (s : string) : list N :=
  rev (drop_white (rev (drop_white (code_points s)))).

(** [s.trim().length > 0]. *)
Definition not_blank (s : string) : bool :=
  (0 <? length (trim s))%nat.

(** *** Abrupt completion *)

Inductive error : Type :=
| SyntaxError
| TypeError
| ReferenceError
| Error (message : string).

(** How an evaluation ends: with a value, or by throwing. For an async
    function the same type tells how its promise settles: fulfilled with
    a value, or rejected with a reason. *)
Inductive completion (A : Type) : Type :=
| Return (a : A)
| Throw (e : error).
Arguments Return {A} a.
Arguments Throw {A} e.

(** *** The JSON codec *)

(** A text, seen through [JSON.parse]: the empty string, a non-empty
    string that is no JSON text, or a text of the document [j]. *)
Inductive text : Type :=
| EmptyText
| Malformed
| Document (j : json).

(** The value [JSON.parse] builds from a document. *)
Fixpoint of_json (j : json) : value :=
  match j with
  | JNull => VNull
  | JBool b => VBool b
  | JNumber q => VNumber (Num q)
  | JString s => VString s
  | JArray l => VArray (map of_json l)
  | JObject m => VObject (map (fun kv => (fst kv, of_json (snd kv))) m)
  end.

(** [JSON.parse t]. *)
Definition JSON_parse (t : text) : completion value :=
  match t with
  | Document j => Return (of_json j)
  | _ => Throw SyntaxError
  end.

(** The document [JSON.stringify] writes for a value in property or
    element position: [None] when the value is left out ([undefined]). *)
Fixpoint to_json (v : value) : option json :=
  match v with
  | VUndefined => None
  | VNull => Some JNull
  | VBool b => Some (JBool b)
  | VNumber (Num q) => Some (JNumber q)
  | VNumber _ => Some JNull
  | VString s => Some (JString s)
  | VArray l =>
      Some (JArray (map (fun x => match to_json x with
                                  | Some j => j
                                  | None => JNull
                                  end) l))
  | VObject m =>
      Some (JObject
              ((fix members (m : list (string * value)) :=
                  match m with
                  | [] => []
                  | (k, x) :: r =>
                      match to_json x with
                      | Some j => (k, j) :: members r
                      | None => members r
                      end
                  end) m))
  end.

(** [JSON.stringify v] for a value that is not [undefined] at top level. *)
Definition JSON_stringify (v : value) : text :=
  match to_json v with
  | Some j => Document j
  | None => Malformed
  end.

End JS.

(* ===================================================================== *)
(** ** lib/api.ts                                                         *)
(* ===================================================================== *)

Module Api.
Import JS.

Definition API_BASE_URL : string := "http://localhost:8000".

(** [type SecurityLevel], a union of five string literals. *)
Inductive SecurityLevel : Type :=
| PUBLIC
| INTERNAL
| CONFIDENTIAL
| RESTRICTED
| TOP_SECRET.

(** The string a level is at run time. *)
Definition level_name (l : SecurityLevel) : string :=
  match l with
  | PUBLIC => "PUBLIC"
  | INTERNAL => "INTERNAL"
  | CONFIDENTIAL => "CONFIDENTIAL"
  | RESTRICTED => "RESTRICTED"
  | TOP_SECRET => "TOP_SECRET"
  end.

(** The ordinal of a level, from the table "5-Level Classification
    System" of backend/start_fast.ps1 (columns Level and Value; the table
    calls the fourth level SECRET). The front end holds no such table. *)
Definition level_value (l : SecurityLevel) : Z :=
  match l with
  | PUBLIC => 0
  | INTERNAL => 1
  | CONFIDENTIAL => 2
  | RESTRICTED => 3
  | TOP_SECRET => 4
  end.

Definition num (z : Z) : value := VNumber (Num (inject_Z z)).

(** *** System configuration *)

Definition mockConfig : value :=
  VObject
    [("embedding_model", VString "Qwen/Qwen3-VL-Embedding-2B");
     ("language_models", VArray [VString "LLaMA 3.2 8B"]);
     ("vector_database", VString "Qdrant");
     ("chunk_size", num 512);
     ("chunk_overlap", num 50);
     ("storage_path", VString "qdrant://localhost:6333")].

(** [typeof m === 'string' && m.trim().length > 0]. *)
Definition is_model_name (m : value) : bool :=
  String.eqb (typeof m) "string"
  && match m with VString s => not_blank s | _ => false end.

(** [typeof v === t ? v : d]. *)
Definition if_typeof (t : string) (v d : value) : value :=
  if String.eqb (typeof v) t then v else d.

Definition normalizeSystemConfig (raw : value) : value :=
  if negb (truthy raw) || negb (String.eqb (typeof raw) "object")
  then mockConfig
  else
    let r := raw in
    let languageModels :=
      match get r "language_models" with
      | VArray items => VArray (List.filter is_model_name items)
      | _ =>
          if is_model_name (get r "language_model")
          then VArray [get r "language_model"]
          else get mockConfig "language_models"
      end in
    VObject
      [("embedding_model",
        if_typeof "string" (get r "embedding_model")
                  (get mockConfig "embedding_model"));
       ("language_models", languageModels);
       ("vector_database",
        if_typeof "string" (get r "vector_database")
                  (get mockConfig "vector_database"));
       ("chunk_size",
        if_typeof "number" (get r "chunk_size") (get mockConfig "chunk_size"));
       ("chunk_overlap",
        if_typeof "number" (get r "chunk_overlap")
                  (get mockConfig "chunk_overlap"));
       ("storage_path",
        if_typeof "string" (get r "storage_path")
                  (get mockConfig "storage_path"))].

(** [interface SystemConfig], as a run-time check: the six properties
    with their declared types. *)
Definition is_string (v : value) : bool :=
  match v with VString _ => true | _ => false end.

Definition is_number (v : value) : bool :=
  match v with VNumber _ => true | _ => false end.

Definition is_string_array (v : value) : bool :=
  match v with VArray items => forallb is_string items | _ => false end.

Definition is_SystemConfig (v : value) : bool :=
  match v with
  | VObject props =>
      is_string (get v "embedding_model")
      && is_string_array (get v "language_models")
      && is_string (get v "vector_database")
      && is_number (get v "chunk_size")
      && is_number (get v "chunk_overlap")
      && is_string (get v "storage_path")
  | _ => false
  end.

(** *** The network *)

Record request : Type := {
  url : string;
  method : string;
  headers : list (string * string);
  body : option text
}.

(** What [await fetch(...)] comes to: the promise is rejected, or a
    response arrives with its [ok] flag, status text and body. *)
Inductive fetch_result : Type :=
| NetworkFailure (e : error)
| Response (ok : bool) (statusText : string) (payload : text).

(** [await response.json()]. *)
Definition response_json (payload : text) : completion value :=
  JSON_parse payload.

(** What a call does besides settling. *)
Inductive event : Type :=
| Fetched (r : request)
| Warned (message : string) (e : error)
| Delayed (ms : Z).

Record run (A : Type) : Type := {
  trace : list event;
  settled : completion A
}.
Arguments trace {A} _.
Arguments settled {A} _.

(** The body of the [try] block shared by the POST calls: fetch, throw
    on a response that is not ok, else parse the body. *)
Definition try_fetch_json (fetch : request -> fetch_result) (r : request)
  (failure : string) : completion value :=
  match fetch r with
  | NetworkFailure e => Throw e
  | Response ok statusText payload =>
      if negb ok then Throw (Error (failure ++ statusText))
      else response_json payload
  end.

Definition dquote : string := String "034" EmptyString.
Definition newline : string := String "010" EmptyString.

Definition document_ids_value (documentIds : option (list string)) : value :=
  match documentIds with
  | Some ids => VArray (map VString ids)
  | None => VNull
  end.

Definition fast_mode_value (fastMode : option bool) : value :=
  match fastMode with
  | Some b => VBool b
  | None => VNull
  end.

(** The object literal given to [JSON.stringify] in [queryRAG]. *)
Definition query_payload (query language : string)
  (securityClearance : SecurityLevel) (documentIds : option (list string))
  (fastMode : option bool) : value :=
  VObject
    [("query", VString query);
     ("language", VString language);
     ("security_clearance", VString (level_name securityClearance));
     ("document_ids", document_ids_value documentIds);
     ("fast_mode", fast_mode_value fastMode)].

Definition json_headers : list (string * string) :=
  [("Content-Type", "application/json")].

(** The response of the [catch] block of [queryRAG]. *)
Definition simulated_response (query : string) : value :=
  VObject
    [("answer",
      VString
        ("This is a simulated response for the query: " ++ dquote ++ query
         ++ dquote ++ newline ++ newline
         ++ "In a production environment, this would contain the actual generated response from the local LLM based on retrieved context from your ingested documents."
         ++ newline ++ newline
         ++ "본 시스템은 한국어 질의도 지원합니다. 문서에서 관련 정보를 검색하여 답변을 생성합니다."));
     ("sources",
      VArray [VString "document1.pdf (page 3)";
              VString "document2.txt (chunk 7)";
              VString "notes.docx (section 2)"]);
     ("retrieval_time_ms", num 245);
     ("generation_time_ms", num 1823)].

(** The request [queryRAG] hands to [fetch]. *)
Definition query_request (query language : string)
  (securityClearance : SecurityLevel) (documentIds : option (list string))
  (fastMode : option bool) : request :=
  {| url := API_BASE_URL ++ "/query";
     method := "POST";
     headers := json_headers;
     body := Some (JSON_stringify
                     (query_payload query language securityClearance
                                    documentIds fastMode)) |}.

(** [queryRAG]. An omitted [language] or [securityClearance] is [None]
    and takes its default; [documentIds] and [fastMode] are [None] when
    null or omitted. *)
Definition queryRAG (query : string) (language : option string)
  (securityClearance : option SecurityLevel)
  (documentIds : option (list string)) (fastMode : option bool)
  (fetch : request -> fetch_result) : run value :=
  let language := default "en" language in
  let securityClearance := default CONFIDENTIAL securityClearance in
  let r := query_request query language securityClearance documentIds
                         fastMode in
  match try_fetch_json fetch r "Query failed: " with
  | Return v => {| trace := [Fetched r]; settled := Return v |}
  | Throw e =>
      {| trace := [Fetched r;
                   Warned "Using mock response for query:" e;
                   Delayed 1500];
         settled := Return (simulated_response query) |}
  end.

(** The object of the [catch] block of [autoDetectSecurity]. *)
Definition default_detection : value :=
  VObject
    [("detected_level", VString "PUBLIC");
     ("level_value", num 1);
     ("confidence", num 0);
     ("findings_count", num 0);
     ("findings", VArray []);
     ("recommendation",
      VString "Unable to analyze documents. Defaulting to PUBLIC access.")].

(** The request [autoDetectSecurity] hands to [fetch]. *)
Definition detect_request (documentIds : list string) : request :=
  {| url := API_BASE_URL ++ "/security/auto-detect";
     method := "POST";
     headers := json_headers;
     body := Some (JSON_stringify
                     (VObject [("document_ids",
                                VArray (map VString documentIds))])) |}.

Definition autoDetectSecurity (documentIds : list string)
  (fetch : request -> fetch_result) : run value :=
  let r := detect_request documentIds in
  match try_fetch_json fetch r "Security auto-detect failed: " with
  | Return v => {| trace := [Fetched r]; settled := Return v |}
  | Throw e =>
      {| trace := [Fetched r; Warned "Failed to auto-detect security:" e];
         settled := Return default_detection |}
  end.

(** The two ways a call fails: the request itself (fetch rejects, or the
    response is not ok), or a body that is no JSON. *)
Definition call_failed (r : fetch_result) : bool :=
  match r with
  | NetworkFailure _ => true
  | Response ok _ _ => negb ok
  end.

Definition unreadable (r : fetch_result) : bool :=
  match r with
  | NetworkFailure _ => false
  | Response ok _ payload =>
      ok && match response_json payload with Throw _ => true | _ => false end
  end.

(** [s.includes(t)]. *)
Fixpoint includes (s t : string) : bool :=
  String.prefix t s
  || match s with
     | EmptyString => false
     | String _ r => includes r t
     end.

End Api.

(* ===================================================================== *)
(** ** lib/activity-log.ts                                                *)
(* ===================================================================== *)

Module ActivityLog.
Import JS.

Record QueryActivityEntry : Type := {
  id : string;
  timestamp : string;
  query : string;
  (** declared [string[]]; [None] is the null or undefined that
      [e.sources ?? []] guards against *)
  sources : option (list string);
  retrieval_time_ms : option number;
  generation_time_ms : option number;
  total_time_ms : option number;
  answer_length_chars : option number;
  success : bool;
  error_message : option string
}.

(** The object an entry is at run time. *)
Definition optional {A} (k : string) (f : A -> value) (o : option A)
  : list (string * value) :=
  match o with
  | Some a => [(k, f a)]
  | None => []
  end.

Definition entry_object (e : QueryActivityEntry) : value :=
  VObject
    ([("id", VString (id e));
      ("timestamp", VString (timestamp e));
      ("query", VString (query e))]
     ++ optional "sources" (fun l => VArray (map VString l)) (sources e)
     ++ optional "retrieval_time_ms" VNumber (retrieval_time_ms e)
     ++ optional "generation_time_ms" VNumber (generation_time_ms e)
     ++ optional "total_time_ms" VNumber (total_time_ms e)
     ++ optional "answer_length_chars" VNumber (answer_length_chars e)
     ++ [("success", VBool (success e))]
     ++ optional "error_message" VString (error_message e)).

Definition STORAGE_KEY : string := "intellecta.queryActivity.v1".
Definition MAX_ENTRIES : nat := 200.

(** The global object of the host: no [window] (server-side rendering), a
    [window] without [localStorage], or a [window] with it. *)
Inductive global : Type :=
| NoWindow
| WindowWithoutStorage
| WindowWithStorage (localStorage : gmap string text).

(** A statement runs in a host state and either returns or throws. *)
Definition M (A : Type) : Type := global -> completion A * global.

Definition ret {A} (a : A) : M A := fun g => (Return a, g).

Definition bind {A B} (m : M A) (k : A -> M B) : M B :=
  fun g =>
    match m g with
    | (Return a, g') => k a g'
    | (Throw e, g') => (Throw e, g')
    end.

Definition try_catch {A} (body : M A) (handler : error -> M A) : M A :=
  fun g =>
    match body g with
    | (Return a, g') => (Return a, g')
    | (Throw e, g') => handler e g'
    end.

Definition lift {A} (c : completion A) : M A := fun g => (c, g).

#[local] Instance M_ret : MRet M := @ret.
#[local] Instance M_bind : MBind M := fun A B k m => bind m k.

(** [window.localStorage.getItem], [setItem] and [removeItem]. Reaching
    them without a [window] or without [localStorage] throws. *)
Definition getItem (k : string) : M (option text) :=
  fun g =>
    match g with
    | NoWindow => (Throw ReferenceError, g)
    | WindowWithoutStorage => (Throw TypeError, g)
    | WindowWithStorage ls => (Return (ls !! k), g)
    end.

Definition setItem (k : string) (t : text) : M unit :=
  fun g =>
    match g with
    | NoWindow => (Throw ReferenceError, g)
    | WindowWithoutStorage => (Throw TypeError, g)
    | WindowWithStorage ls => (Return tt, WindowWithStorage (<[k := t]> ls))
    end.

Definition removeItem (k : string) : M unit :=
  fun g =>
    match g with
    | NoWindow => (Throw ReferenceError, g)
    | WindowWithoutStorage => (Throw TypeError, g)
    | WindowWithStorage ls => (Return tt, WindowWithStorage (delete k ls))
    end.

Definition canUseStorage : M bool :=
  fun g =>
    match g with
    | WindowWithStorage _ => (Return true, g)
    | _ => (Return false, g)
    end.

(** The filter's predicate, [!!e && typeof e === "object"]. *)
Definition is_entry_like (e : value) : bool :=
  truthy e && String.eqb (typeof e) "object".

Definition getQueryActivity : M (list value) :=
  ok ← canUseStorage;
  if negb ok then ret []
  else
    try_catch
      (raw ← getItem STORAGE_KEY;
       match raw with
       | None | Some EmptyText => ret []   (* [!raw]: null or empty *)
       | Some t =>
           parsed ← lift (JSON_parse t);
           match parsed with
           | VArray items => ret (List.filter is_entry_like items)
           | _ => ret []
           end
       end)
      (fun _ => ret []).

Definition appendQueryActivity (entry : QueryActivityEntry) : M unit :=
  ok ← canUseStorage;
  if negb ok then ret tt
  else
    current ← getQueryActivity;
    let next := take MAX_ENTRIES (entry_object entry :: current) in
    setItem STORAGE_KEY (JSON_stringify (VArray next)).

Definition clearQueryActivity : M unit :=
  ok ← canUseStorage;
  if negb ok then ret tt
  else removeItem STORAGE_KEY.

(** *** The summary *)

Record TopSource : Type := { source : string; count : nat }.

Record QueryActivitySummary : Type := {
  total_queries : nat;
  success_rate : number;
  avg_retrieval_time_ms : option number;   (* [None]: undefined *)
  avg_generation_time_ms : option number;
  avg_total_time_ms : option number;
  unique_sources_count : nat;
  top_sources : list TopSource
}.

Definition avg (nums : list number) : option number :=
  if (length nums =? 0)%nat then None
  else Some (Math_round (div (fold_left add nums (Num 0))
                             (of_nat (length nums)))).

(** [.filter((n): n is number => typeof n === "number" &&
    Number.isFinite(n))] on the optional values of a field. *)
Definition finite_numbers (l : list (option number)) : list number :=
  flat_map (fun n => match n with
                     | Some x => if isFinite x then [x] else []
                     | None => []
                     end) l.

(** A [Map<string, number>]: its entries in insertion order. *)
Definition Map : Type := list (string * nat).

Fixpoint Map_get (k : string) (m : Map) : option nat :=
  match m with
  | [] => None
  | (k', v) :: r => if String.eqb k k' then Some v else Map_get k r
  end.

(** [m.set(k, v)]: a present key keeps its place, a new one goes last. *)
Fixpoint Map_set (k : string) (v : nat) (m : Map) : Map :=
  match m with
  | [] => [(k, v)]
  | (k', v') :: r =>
      if String.eqb k k' then (k', v) :: r else (k', v') :: Map_set k v r
  end.

(** [Array.prototype.sort] with a comparator. The sort is stable, so with
    a consistent comparator its result is fixed; stable insertion
    computes it. *)
Fixpoint insert_by {A} (cmp : A -> A -> Z) (x : A) (l : list A) : list A :=
  match l with
  | [] => [x]
  | y :: r => if (cmp x y <=? 0)%Z then x :: l else y :: insert_by cmp x r
  end.

Definition sort_by {A} (cmp : A -> A -> Z) (l : list A) : list A :=
  foldr (insert_by cmp) [] l.

(** The loop [for (const s of e.sources ?? []) counts.set(s,
    (counts.get(s) ?? 0) + 1)]. *)
Definition count_sources (counts : Map) (e : QueryActivityEntry) : Map :=
  fold_left (fun m s => Map_set s (default 0%nat (Map_get s m) + 1) m)
            (default [] (sources e)) counts.

Definition summarizeQueryActivity (entries : list QueryActivityEntry)
  : QueryActivitySummary :=
  let total := length entries in
  let successCount := length (List.filter success entries) in
  let retrieval := finite_numbers (map retrieval_time_ms entries) in
  let generation := finite_numbers (map generation_time_ms entries) in
  let totalTimes := finite_numbers (map total_time_ms entries) in
  let counts := fold_left count_sources entries [] in
  let top_sources :=
    map (fun '(source, count) => {| source := source; count := count |})
        (take 20 (sort_by (fun a b => (Z.of_nat (snd b) - Z.of_nat (snd a))%Z)
                          counts)) in
  {| total_queries := total;
     success_rate :=
       if (total =? 0)%nat then Num 0
       else div (of_nat successCount) (of_nat total);
     avg_retrieval_time_ms := avg retrieval;
     avg_generation_time_ms := avg generation;
     avg_total_time_ms := avg totalTimes;
     unique_sources_count := length counts;
     top_sources := top_sources |}.

(** *** Vocabulary of the statements *)

(** A non-null value whose [typeof] is ["object"]: an object or an
    array. *)
Definition is_object (v : value) : bool :=
  match v with
  | VArray _ | VObject _ => true
  | _ => false
  end.

(** The text under [STORAGE_KEY], if the host has a store and the key is
    set. *)
Definition stored_text (g : global) : option text :=
  match g with
  | WindowWithStorage ls => ls !! STORAGE_KEY
  | _ => None
  end.

(** The elements of the stored array; none when nothing is stored or
    what is stored is not the text of an array. *)
Definition stored_array (g : global) : list value :=
  match stored_text g with
  | Some (Document (JArray items)) => map of_json items
  | _ => []
  end.

(** What a value has become once written by [JSON.stringify] and read by
    [JSON.parse]. *)
Definition json_round_trip (v : value) : value :=
  match JSON_stringify v with
  | Document j => of_json j
  | _ => VUndefined
  end.

(** The same for a value in element position, where [undefined] is
    written as [null]. *)
Definition element_round_trip (x : value) : value :=
  of_json (match to_json x with Some j => j | None => JNull end).

(** An entry whose optional numbers, where present, are finite. *)
Definition finite_or_absent (n : option number) : bool :=
  match n with
  | Some x => isFinite x
  | None => true
  end.

Definition finite_entry (e : QueryActivityEntry) : bool :=
  finite_or_absent (retrieval_time_ms e)
  && finite_or_absent (generation_time_ms e)
  && finite_or_absent (total_time_ms e)
  && finite_or_absent (answer_length_chars e).

(** Every source string of a list of entries, in order. *)
Definition all_sources (entries : list QueryActivityEntry) : list string :=
  flat_map (fun e => default [] (sources e)) entries.

(** The keys of a map, in insertion order, and the loop body on one
    source. *)
Definition keys (m : Map) : list string := map fst m.

Definition bump (m : Map) (s : string) : Map :=
  Map_set s (default 0%nat (Map_get s m) + 1) m.

(** The comparator given to [sort], [(a, b) => b[1] - a[1]], and the
    order it stands for on map entries. *)
Definition by_count (a b : string * nat) : Z :=
  (Z.of_nat (snd b) - Z.of_nat (snd a))%Z.

Definition entry_desc (a b : string * nat) : Prop := (snd b <= snd a)%nat.

(** Non-increasing counts. *)
Definition by_count_desc (a b : TopSource) : Prop := (count b <= count a)%nat.

End ActivityLog.

(* ===================================================================== *)
(** ** Sample data for the worked examples                                *)
(* ===================================================================== *)

Module Samples.
Import JS ActivityLog.

Definition answered : QueryActivityEntry :=
  {| id := "1730000000000";
     timestamp := "2024-10-27T03:33:20.000Z";
     query := "What is the energy capacity?";
     sources := Some ["a.pdf"; "b.pdf"];
     retrieval_time_ms := Some (Num 100);
     generation_time_ms := Some NaN;
     total_time_ms := None;
     answer_length_chars := Some (Num 3);
     success := true;
     error_message := None |}.

Definition failed : QueryActivityEntry :=
  {| id := "1730000000001";
     timestamp := "2024-10-27T03:33:20.001Z";
     query := "Who signed the contract?";
     sources := Some ["b.pdf"; "c.pdf"; "b.pdf"];
     retrieval_time_ms := Some (Num 201);
     generation_time_ms := None;
     total_time_ms := None;
     answer_length_chars := None;
     success := false;
     error_message := Some "Query failed" |}.

Definition unsourced : QueryActivityEntry :=
  {| id := "1730000000002";
     timestamp := "2024-10-27T03:33:20.002Z";
     query := "Summarise the report";
     sources := None;
     retrieval_time_ms := Some PosInfinity;
     generation_time_ms := None;
     total_time_ms := Some (Num (5 # 2));
     answer_length_chars := None;
     success := true;
     error_message := None |}.

(** A store whose array mixes entries with other JSON values. *)
Definition mixed_store : gmap string text :=
  {[ STORAGE_KEY :=
       Document (JArray [JNull; JNumber 1; JObject [("id", JString "x")];
                         JArray []; JString "s"; JBool true]) ]}.

(** A log at capacity: 200 entries numbered 0 (newest) to 199
    (oldest). *)
Definition numbered (n : nat) : json :=
  JObject [("n", JNumber (inject_Z (Z.of_nat n)))].

Definition full_store : gmap string text :=
  {[ STORAGE_KEY := Document (JArray (map numbered (seq 0 200))) ]}.

(** U+00A0 and U+3000 in UTF-8: white space beyond ASCII. *)
Definition wide_blank : string :=
  String "194" (String "160" (String "227" (String "128" (String "128" "")))).

End Samples.

(* ===================================================================== *)
(** ** lib/api.ts: the other calls                                        *)
(* ===================================================================== *)

Module ApiMore.
Import JS Api.

(** [fetch(url)] and [fetch(url, { method: 'DELETE' })]. *)
Definition get_request (path : string) : request :=
  {| url := API_BASE_URL ++ path; method := "GET"; headers := [];
     body := None |}.

Definition delete_request (path : string) : request :=
  {| url := API_BASE_URL ++ path; method := "DELETE"; headers := [];
     body := None |}.

(** The [try]/[catch] of every call: fetch, throw on a response that is
    not ok, parse the body and process it; when any of these throws, warn
    on the console, wait through the delays and answer the fallback. *)
Definition attempt {A : Type} (fetch : request -> fetch_result)
  (r : request) (failure : string) (process : value -> completion A)
  (warning : string) (delays : list Z) (fallback : A) : run A :=
  match
    match try_fetch_json fetch r failure with
    | Return v => process v
    | Throw e => Throw e
    end
  with
  | Return a => {| trace := [Fetched r]; settled := Return a |}
  | Throw e =>
      {| trace := Fetched r :: Warned warning e :: map Delayed delays;
         settled := Return fallback |}
  end.

(** [o.k] where a null or undefined [o] throws a TypeError. *)
Definition member (o : value) (k : string) : completion value :=
  match o with
  | VNull | VUndefined => Throw TypeError
  | _ => Return (get o k)
  end.

Definition mockStatus : value :=
  VObject
    [("ingestion",
      VObject [("status", VString "idle"); ("documents_processed", num 12)]);
     ("retrieval",
      VObject [("status", VString "idle"); ("last_query_time_ms", num 245)]);
     ("generation",
      VObject [("status", VString "idle");
               ("last_generation_time_ms", num 1823)])].

Definition getSystemStatus (fetch : request -> fetch_result) : run value :=
  attempt fetch (get_request "/status") "Status fetch failed: "
          Return "Using mock response for status:" [] mockStatus.

Definition getSystemConfig (fetch : request -> fetch_result) : run value :=
  attempt fetch (get_request "/config") "Config fetch failed: "
          (fun v => Return (normalizeSystemConfig v))
          "Using mock response for config:" []
          (normalizeSystemConfig mockConfig).

Definition empty_metrics : value :=
  VObject
    [("total_queries", num 0);
     ("avg_accuracy", num 0);
     ("avg_precision", num 0);
     ("avg_efficiency", num 0);
     ("avg_throughput", num 0);
     ("metrics_history", VArray []);
     ("performance_breakdown", VArray [])].

Definition getQueryMetricsStats (fetch : request -> fetch_result)
  : run value :=
  attempt fetch (get_request "/query/metrics") "Metrics stats fetch failed: "
          Return "Failed to fetch metrics stats:" [] empty_metrics.

Section History.
(** [ToString] on numbers, as a template literal applies it. *)
Variable ToString : number -> string.

(** [data.history || []]. *)
Definition history_or_empty (data : value) : completion value :=
  match member data "history" with
  | Return h => Return (if truthy h then h else VArray [])
  | Throw e => Throw e
  end.

(** [getQueryHistory(limit = 50)]; an omitted limit is [None]. *)
Definition getQueryHistory (limit : option number)
  (fetch : request -> fetch_result) : run value :=
  let limit := default (Num 50) limit in
  attempt fetch (get_request ("/query/history?limit=" ++ ToString limit))
          "Query history fetch failed: " history_or_empty
          "Failed to fetch query history:" [] (VArray []).
End History.

Definition failure_report (message : string) : value :=
  VObject [("success", VBool false); ("message", VString message)].

Definition clearQueryHistory (fetch : request -> fetch_result) : run value :=
  attempt fetch (delete_request "/query/history") "Clear history failed: "
          Return "Failed to clear query history:" []
          (failure_report "Failed to clear history").

Definition deleteQueryFromHistory (queryId : string)
  (fetch : request -> fetch_result) : run value :=
  attempt fetch (delete_request ("/query/history/" ++ queryId))
          "Delete query failed: " Return
          "Failed to delete query from history:" []
          (failure_report "Failed to delete query").

Definition empty_stats : value :=
  VObject
    [("total_chunks", num 0);
     ("total_documents", num 0);
     ("total_datasets", num 0);
     ("chunks_by_source", VArray []);
     ("chunks_by_domain", VArray []);
     ("chunks_by_type", VArray []);
     ("chunks_by_document", VArray []);
     ("date_range", VObject [("earliest", VNull); ("latest", VNull)]);
     ("documents", VArray [])].

Definition getDataStats (fetch : request -> fetch_result) : run value :=
  attempt fetch (get_request "/stats") "Stats fetch failed: "
          Return "Failed to fetch data stats:" [] empty_stats.

(** *** Documents *)

(** A [Date] object, by the expression that made it: [new Date(v)] or
    [new Date()]. *)
Inductive Date : Type :=
| NewDate (argument : option value).

(** [interface DocumentRecord]. The fields hold what the expressions of
    the code put there, whatever its type. *)
Record DocumentRecord : Type := {
  id : value;
  filename : value;
  size : value;
  chunks : value;
  ingestedAt : Date;
  status : value
}.

(** [mockDocuments], as the module builds it when loaded at time
    [Date.now() = loaded]. *)
Definition mockDocuments (loaded : Z) : list DocumentRecord :=
  [ {| id := VString "1";
       filename := VString "research_paper.pdf";
       size := num 2457600;
       chunks := num 42;
       ingestedAt := NewDate (Some (num (loaded - 1000 * 60 * 60 * 2)));
       status := VString "ready" |};
    {| id := VString "2";
       filename := VString "meeting_notes.docx";
       size := num 156800;
       chunks := num 12;
       ingestedAt := NewDate (Some (num (loaded - 1000 * 60 * 60 * 24)));
       status := VString "ready" |};
    {| id := VString "3";
       filename := VString "technical_spec.txt";
       size := num 45200;
       chunks := num 8;
       ingestedAt := NewDate (Some (num (loaded - 1000 * 60 * 60 * 48)));
       status := VString "ready" |} ].

(** The arrow function given to [data.map] in [getDocuments]. *)
Definition document_of (doc : value) : completion DocumentRecord :=
  match doc with
  | VNull | VUndefined => Throw TypeError
  | _ =>
      Return
        {| id := get doc "id";
           filename := get doc "filename";
           size := get doc "size";
           chunks := get doc "chunks";
           ingestedAt :=
             if truthy (get doc "ingestedAt")
             then NewDate (Some (get doc "ingestedAt"))
             else NewDate None;
           status := get doc "status" |}
  end.

(** [l.map(f)] for an [f] that may throw: the first throw ends it. *)
Fixpoint map_throwing {A B : Type} (f : A -> completion B) (l : list A)
  : completion (list B) :=
  match l with
  | [] => Return []
  | a :: rest =>
      match f a with
      | Throw e => Throw e
      | Return b =>
          match map_throwing f rest with
          | Throw e => Throw e
          | Return bs => Return (b :: bs)
          end
      end
  end.

(** [data.map(...)]: only an array has [map]. *)
Definition documents_of (data : value) : completion (list DocumentRecord) :=
  match data with
  | VArray docs => map_throwing document_of docs
  | _ => Throw TypeError
  end.

(** [getDocuments], reading the module's [mockDocuments] as it stands. *)
Definition getDocuments (fetch : request -> fetch_result)
  (mock : list DocumentRecord) : run (list DocumentRecord) :=
  attempt fetch (get_request "/documents") "Documents fetch failed: "
          documents_of "Using mock response for documents:" [] mock.

(** [doc.id === id] for a string [id]. *)
Definition has_id (id0 : string) (doc : DocumentRecord) : bool :=
  match id doc with
  | VString s => String.eqb s id0
  | _ => false
  end.

(** [findIndex] followed by [splice(index, 1)]: the first match goes. *)
Fixpoint remove_first {A : Type} (p : A -> bool) (l : list A) : list A :=
  match l with
  | [] => []
  | a :: rest => if p a then rest else a :: remove_first p rest
  end.

Definition deleted_report : value :=
  VObject [("success", VBool true);
           ("message", VString "Document deleted successfully")].

(** [deleteDocument]: what it settles to, and [mockDocuments] after. *)
Definition deleteDocument (id0 : string) (fetch : request -> fetch_result)
  (mock : list DocumentRecord) : run value * list DocumentRecord :=
  let r := delete_request ("/documents/" ++ id0) in
  match try_fetch_json fetch r "Delete failed: " with
  | Return v => ({| trace := [Fetched r]; settled := Return v |}, mock)
  | Throw e =>
      ({| trace := [Fetched r;
                    Warned "Using mock response for delete:" e;
                    Delayed 500];
          settled := Return deleted_report |},
       remove_first (has_id id0) mock)
  end.

(** *** Ingestion *)

(** A [File], by the properties the code reads. *)
Record File : Type := {
  name : string;
  file_size : number;
  type : string
}.

(** A request whose body is a [FormData]. *)
Record form_request : Type := {
  form_url : string;
  form_method : string;
  form_data : list (string * File)
}.

Inductive upload_event : Type :=
| Uploaded (r : form_request)
| UploadWarned (message : string) (e : error)
| UploadDelayed (ms : Z).

Record upload_run : Type := {
  upload_trace : list upload_event;
  upload_settled : completion value
}.

Definition try_upload (fetch : form_request -> fetch_result)
  (r : form_request) (failure : string) : completion value :=
  match fetch r with
  | NetworkFailure e => Throw e
  | Response ok statusText payload =>
      if negb ok then Throw (Error (failure ++ statusText))
      else response_json payload
  end.

(** [Math.floor(Math.random() * 50) + 10] for the draw [r] of
    [Math.random()]. *)
Definition of_nat_value (n : nat) : value := VNumber (of_nat n).

Definition mock_chunks (r : Q) : Z := (Qfloor (r * 50) + 10)%Z.

Definition ingested_message (f : File) : string :=
  "Successfully ingested " ++ name f.

(** [ingestDocument]; [random] is what [Math.random()] draws if asked. *)
Definition ingestDocument (file : File) (random : Q)
  (fetch : form_request -> fetch_result) : upload_run :=
  let r := {| form_url := API_BASE_URL ++ "/ingest";
              form_method := "POST";
              form_data := [("file", file)] |} in
  match try_upload fetch r "Ingestion failed: " with
  | Return v => {| upload_trace := [Uploaded r]; upload_settled := Return v |}
  | Throw e =>
      {| upload_trace := [Uploaded r;
                          UploadWarned "Using mock response for ingest:" e;
                          UploadDelayed 2000];
         upload_settled :=
           Return
             (VObject
                [("success", VBool true);
                 ("filename", VString (name file));
                 ("chunks_created", num (mock_chunks random));
                 ("message", VString (ingested_message file))]) |}
  end.

(** One element of [results] in the fallback of [ingestDocumentsBatch]. *)
Definition mock_result (file : File) (random : Q) : value :=
  VObject
    [("filename", VString (name file));
     ("status", VString "success");
     ("success", VBool true);
     ("chunks_created", num (mock_chunks random));
     ("message", VString (ingested_message file))].

(** [files.map(...)] drawing [Math.random()] once per file: [random i]
    is the draw made for the file at index [i]. *)
Definition mock_results (files : list File) (random : nat -> Q)
  : list value :=
  imap (fun i file => mock_result file (random i)) files.

Definition ingestDocumentsBatch (files : list File) (random : nat -> Q)
  (fetch : form_request -> fetch_result) : upload_run :=
  let r := {| form_url := API_BASE_URL ++ "/ingest/batch";
              form_method := "POST";
              form_data := map (fun file => ("files", file)) files |} in
  match try_upload fetch r "Batch ingestion failed: " with
  | Return v => {| upload_trace := [Uploaded r]; upload_settled := Return v |}
  | Throw e =>
      {| upload_trace :=
           [Uploaded r;
            UploadWarned "Using mock response for batch ingest:" e;
            UploadDelayed 3000];
         upload_settled :=
           Return
             (VObject
                [("total", of_nat_value (length files));
                 ("successful", of_nat_value (length files));
                 ("failed", num 0);
                 ("results", VArray (mock_results files random))]) |}
  end.

End ApiMore.

(* ===================================================================== *)
(** ** The pages that call the service layer                              *)
(* ===================================================================== *)

Module Pages.
Import JS ApiMore.

(** *** pages/Dashboard.tsx *)




(** *** pages/DocumentIngestion.tsx *)

(** The updater [toggleDocumentSelection] gives to [setSelectedDocIds]:
    [prev.includes(docId) ? prev.filter(id => id !== docId)
                          : [...prev, docId]]. *)
Definition toggleDocumentSelection (docId : string) (prev : list string)
  : list string :=
  if existsb (String.eqb docId) prev
  then List.filter (fun id0 => negb (String.eqb id0 docId)) prev
  else prev ++ [docId].

(** The updater [handleDrop] and [handleFileSelect] give to
    [setSelectedFiles] for the files that passed the type filter:
    files whose name is already selected are left out. *)
Definition add_files (incoming prev : list File) : list File :=
  let existingNames := map name prev in
  let newFiles :=
    List.filter (fun f => negb (existsb (String.eqb (name f)) existingNames))
                incoming in
  prev ++ newFiles.

(** *** Vocabulary of the statements *)





End Pages.

(* ===================================================================== *)
(** ** Vocabulary for runs of several calls                               *)
(* ===================================================================== *)

Module Runs.
Import JS Api ApiMore ActivityLog.

(** One [appendQueryActivity] after another. *)
Fixpoint append_all (entries : list QueryActivityEntry) : M unit :=
  match entries with
  | [] => ret tt
  | e :: rest => bind (appendQueryActivity e) (fun _ => append_all rest)
  end.

(** One [deleteDocument] after another: [mockDocuments] at the end. *)
Definition delete_all (ids : list string) (fetch : request -> fetch_result)
  (mock : list DocumentRecord) : list DocumentRecord :=
  fold_left (fun m i => snd (deleteDocument i fetch m)) ids mock.

(** The string a document's id is, if it is one. *)
Definition id_string (doc : DocumentRecord) : option string :=
  match ApiMore.id doc with
  | VString s => Some s
  | _ => None
  end.

(** The arrow function [([source, count]) => ({ source, count })]. *)
Definition as_top (kv : string * nat) : TopSource :=
  let '(source, count) := kv in {| source := source; count := count |}.

(** A count as a rational. *)
Definition Nq (n : nat) : Q := inject_Z (Z.of_nat n).


End Runs.

(* ===================================================================== *)
(** ** Facts about the JSON codec                                         *)
(* ===================================================================== *)

Module JSFacts.
Import JS.

(** Writing what was parsed gives the document back. *)
Lemma to_json_of_json (j : json) : to_json (of_json j) = Some j.
Proof.
  induction j as [ | b | q | s | l IH | m IH ] using json_ind_deep;
    try reflexivity.
  - simpl. do 2 f_equal.
    induction IH as [ | x r Hx _ IHr ]; simpl; [ reflexivity | ].
    rewrite Hx. f_equal. exact IHr.
  - simpl. do 2 f_equal.
    induction IH as [ | [k x] r Hx _ IHr ]; simpl; [ reflexivity | ].
    simpl in Hx. rewrite Hx. f_equal. exact IHr.
Qed.

Lemma to_json_array_of_json (l : list json) :
  to_json (VArray (map of_json l)) = Some (JArray l).
Proof. exact (to_json_of_json (JArray l)). Qed.

Lemma parse_stringify_of_json (j : json) :
  JSON_parse (JSON_stringify (of_json j)) = Return (of_json j).
Proof. unfold JSON_stringify. rewrite to_json_of_json. reflexivity. Qed.

(** [JSON.stringify] of an object or an array always gives a document. *)
Lemma to_json_array (l : list value) :
  exists js, to_json (VArray l) = Some (JArray js) /\ length js = length l.
Proof.
  eexists. split; [ reflexivity | ]. by rewrite length_map.
Qed.

End JSFacts.

(* ===================================================================== *)
(** ** The activity log: reading, appending, clearing                     *)
(* ===================================================================== *)

Module ActivityLogFacts.
Import JS ActivityLog JSFacts.

Ltac run_M :=
  unfold mbind, M_bind, mret, M_ret, bind, ret, lift, try_catch,
    canUseStorage, getItem, setItem, removeItem; simpl.

(** The filter's predicate keeps exactly the objects and the arrays. *)
Lemma is_entry_like_object (v : value) : is_entry_like v = is_object v.
Proof.
  destruct v as [ | | b | n | s | l | m ]; try reflexivity.
  - unfold is_entry_like. simpl. apply andb_false_r.
  - unfold is_entry_like. simpl. apply andb_false_r.
  - unfold is_entry_like. simpl. apply andb_false_r.
Qed.

Lemma is_object_typeof (v : value) :
  is_object v = true <-> typeof v = "object" /\ v <> VNull.
Proof.
  destruct v; simpl; split; try discriminate; try (intros [? ?]; congruence);
    intros _; split; congruence.
Qed.

(** What [getQueryActivity] computes, in every host state. *)
Lemma getQueryActivity_spec (g : global) :
  getQueryActivity g = (Return (List.filter is_object (stored_array g)), g).
Proof.
  destruct g as [ | | ls ]; try reflexivity.
  unfold getQueryActivity, stored_array, stored_text. run_M.
  destruct (ls !! STORAGE_KEY) as [ [ | | j ] | ]; try reflexivity.
  destruct j; try reflexivity.
  simpl. do 2 f_equal. apply filter_ext. exact is_entry_like_object.
Qed.

Lemma filter_map_comm {A B} (f : B -> bool) (h : A -> B) (l : list A) :
  List.filter f (map h l) = map h (List.filter (fun a => f (h a)) l).
Proof.
  induction l as [ | a l IH ]; simpl; [ reflexivity | ].
  destruct (f (h a)); simpl; by rewrite IH.
Qed.

(** What is read is made of parsed documents. *)
Lemma log_of_json (g : global) :
  exists js, List.filter is_object (stored_array g) = map of_json js.
Proof.
  unfold stored_array.
  destruct (stored_text g) as [ [ | | [ | | | | items | ] ] | ];
    try (exists []; reflexivity).
  eexists. apply filter_map_comm.
Qed.

Lemma element_round_trip_of_json (j : json) :
  element_round_trip (of_json j) = of_json j.
Proof. unfold element_round_trip. by rewrite to_json_of_json. Qed.

Lemma element_round_trip_object (x : value) :
  is_object x = true -> element_round_trip x = json_round_trip x.
Proof.
  destruct x; try discriminate; intros _; reflexivity.
Qed.

Lemma is_object_round_trip (x : value) :
  is_object x = true -> is_object (element_round_trip x) = true.
Proof.
  destruct x; try discriminate; intros _; reflexivity.
Qed.

Lemma stringify_array (l : list value) :
  JSON_stringify (VArray l)
  = Document (JArray (map (fun x => match to_json x with
                                     | Some j => j
                                     | None => JNull
                                     end) l)).
Proof. reflexivity. Qed.

Lemma filter_all {A} (f : A -> bool) (l : list A) :
  Forall (fun x => f x = true) l -> List.filter f l = l.
Proof.
  induction 1 as [ | x l Hx _ IH ]; simpl; [ reflexivity | ].
  by rewrite Hx, IH.
Qed.

Lemma Forall_is_object_filter (l : list value) :
  Forall (fun x => is_object x = true) (List.filter is_object l).
Proof.
  apply Forall_forall. intros x Hx.
  apply list_elem_of_In, filter_In in Hx. tauto.
Qed.

(** The state after an append, and what is read from it. *)
Lemma appendQueryActivity_spec (ls : gmap string text)
  (e : QueryActivityEntry) :
  let g := WindowWithStorage ls in
  let next := take MAX_ENTRIES
                (entry_object e :: List.filter is_object (stored_array g)) in
  appendQueryActivity e g
  = (Return tt,
     WindowWithStorage (<[STORAGE_KEY := JSON_stringify (VArray next)]> ls)).
Proof.
  intros g next. unfold appendQueryActivity.
  unfold mbind at 1, M_bind at 1, bind at 1. simpl.
  unfold mbind, M_bind, bind. rewrite getQueryActivity_spec. reflexivity.
Qed.

Lemma stored_array_after (ls : gmap string text) (l : list value) :
  stored_array
    (WindowWithStorage (<[STORAGE_KEY := JSON_stringify (VArray l)]> ls))
  = map element_round_trip l.
Proof.
  unfold stored_array, stored_text. rewrite lookup_insert_eq.
  rewrite stringify_array. by rewrite map_map.
Qed.

Lemma log_after_append (ls : gmap string text) (e : QueryActivityEntry) :
  let g := WindowWithStorage ls in
  let before := List.filter is_object (stored_array g) in
  forall g', appendQueryActivity e g = (Return tt, g') ->
  List.filter is_object (stored_array g')
  = take MAX_ENTRIES (json_round_trip (entry_object e) :: before).
Proof.
  intros g before g' Happ.
  pose proof (appendQueryActivity_spec ls e) as Hspec. cbv zeta in Hspec.
  fold g in Hspec. rewrite Hspec in Happ. injection Happ as <-.
  rewrite stored_array_after.
  fold before.
  destruct (log_of_json g) as [js Hjs]. fold before in Hjs.
  rewrite filter_all.
  - change MAX_ENTRIES with (S 199). rewrite !firstn_cons. simpl map.
    f_equal. rewrite <- firstn_map. f_equal.
    rewrite Hjs, map_map. apply map_ext. intros j.
    apply element_round_trip_of_json.
  - apply Forall_map. constructor; [ reflexivity | ]. apply Forall_take.
    apply (Forall_impl _ _ _ (Forall_is_object_filter _)).
    intros x Hx. by apply is_object_round_trip.
Qed.

(** An entry with finite numbers comes back from the store as it went
    in. *)
Lemma json_round_trip_finite_entry (e : QueryActivityEntry) :
  finite_entry e = true -> json_round_trip (entry_object e) = entry_object e.
Proof.
  destruct e as [i t q src r gn tt al ok em]. unfold finite_entry. simpl.
  rewrite !andb_true_iff. intros [[[Hr Hg] Ht] Ha].
  assert (Hsrc : forall l : list string,
             map (fun x => of_json match to_json x with
                                   | Some j => j
                                   | None => JNull
                                   end) (map VString l) = map VString l).
  { intros l. rewrite map_map. apply map_ext. reflexivity. }
  destruct src as [src | ];
    destruct r as [[ | | | ] | ]; try discriminate Hr;
    destruct gn as [[ | | | ] | ]; try discriminate Hg;
    destruct tt as [[ | | | ] | ]; try discriminate Ht;
    destruct al as [[ | | | ] | ]; try discriminate Ha;
    destruct em as [em | ];
    unfold json_round_trip, entry_object; simpl;
    rewrite ?map_map; simpl; rewrite ?map_map;
    repeat f_equal; rewrite <- ?(map_map VString); try apply Hsrc.
Qed.

(** Worked cases: no window, no key, an empty text, a text that is no
    JSON, a JSON object, and an array of mixed elements. *)
Example getQueryActivity_cases :
  fst (getQueryActivity NoWindow) = Return []
  /\ fst (getQueryActivity WindowWithoutStorage) = Return []
  /\ fst (getQueryActivity (WindowWithStorage ∅)) = Return []
  /\ fst (getQueryActivity
            (WindowWithStorage {[ STORAGE_KEY := EmptyText ]})) = Return []
  /\ fst (getQueryActivity
            (WindowWithStorage {[ STORAGE_KEY := Malformed ]})) = Return []
  /\ fst (getQueryActivity
            (WindowWithStorage {[ STORAGE_KEY := Document (JObject []) ]}))
     = Return []
  /\ fst (getQueryActivity (WindowWithStorage Samples.mixed_store))
     = Return [VObject [("id", VString "x")]; VArray []].
Proof. repeat split; vm_compute; reflexivity. Qed.

(** Without the guard of [canUseStorage] the store operations throw. *)
Example removeItem_without_window :
  removeItem STORAGE_KEY NoWindow = (Throw ReferenceError, NoWindow)
  /\ clearQueryActivity NoWindow = (Return tt, NoWindow).
Proof. split; reflexivity. Qed.

(** An append without a store does nothing. *)
Lemma appendQueryActivity_without_storage (e : QueryActivityEntry) :
  appendQueryActivity e NoWindow = (Return tt, NoWindow)
  /\ appendQueryActivity e WindowWithoutStorage
     = (Return tt, WindowWithoutStorage).
Proof. split; reflexivity. Qed.

(** A number that is not finite comes back as null. *)
Example json_round_trip_answered :
  json_round_trip (entry_object Samples.answered)
  = VObject
      [("id", VString "1730000000000");
       ("timestamp", VString "2024-10-27T03:33:20.000Z");
       ("query", VString "What is the energy capacity?");
       ("sources", VArray [VString "a.pdf"; VString "b.pdf"]);
       ("retrieval_time_ms", VNumber (Num 100));
       ("generation_time_ms", VNull);
       ("answer_length_chars", VNumber (Num 3));
       ("success", VBool true)].
Proof. reflexivity. Qed.

(** C8. [getQueryActivity] never throws and leaves the host state as it
    is, whatever is stored (no store, no key, an empty or non-JSON text,
    a JSON text that is not an array, an array of anything): it returns
    the objects and arrays among the elements of the stored array, and
    the empty list when there is no stored array; every element it
    returns has [typeof] "object" and is not null. *)
Theorem getQueryActivity_total (g : global) :
  exists l : list value,
    getQueryActivity g = (Return l, g)
    /\ l = List.filter is_object (stored_array g)
    /\ Forall (fun e => typeof e = "object" /\ e <> VNull) l.
Proof.
  eexists. split; [ apply getQueryActivity_spec | ].
  split; [ reflexivity | ].
  apply (Forall_impl _ _ _ (Forall_is_object_filter _)).
  intros x Hx. by apply is_object_typeof.
Qed.

(** C7. [clearQueryActivity] returns normally in every host state; run
    on its own result it returns normally again and changes nothing; and
    after it [getQueryActivity] returns the empty list. *)
Theorem clearQueryActivity_idempotent (g : global) :
  exists g' : global,
    clearQueryActivity g = (Return tt, g')
    /\ clearQueryActivity g' = (Return tt, g')
    /\ getQueryActivity g' = (Return [], g').
Proof.
  destruct g as [ | | ls ].
  - exists NoWindow. repeat split; reflexivity.
  - exists WindowWithoutStorage. repeat split; reflexivity.
  - exists (WindowWithStorage (delete STORAGE_KEY ls)).
    split; [ reflexivity | ]. split.
    + unfold clearQueryActivity. run_M. by rewrite delete_delete_eq.
    + rewrite getQueryActivity_spec. unfold stored_array, stored_text.
      by rewrite lookup_delete_eq.
Qed.

(** Clearing a log that holds nothing changes nothing. *)
Lemma clearQueryActivity_empty (g : global) :
  stored_text g = None -> clearQueryActivity g = (Return tt, g).
Proof.
  destruct g as [ | | ls ]; try reflexivity.
  simpl. intros Hnone. unfold clearQueryActivity. run_M.
  by rewrite delete_id.
Qed.

(** X2. An append and a clear leave the other keys of the store alone:
    with a store, every key but [STORAGE_KEY] holds afterwards what it
    held before. *)
Lemma other_keys_untouched (ls : gmap string text) (e : QueryActivityEntry)
  (k : string) :
  k <> STORAGE_KEY ->
  exists ls1 ls2 : gmap string text,
    appendQueryActivity e (WindowWithStorage ls)
    = (Return tt, WindowWithStorage ls1)
    /\ clearQueryActivity (WindowWithStorage ls)
       = (Return tt, WindowWithStorage ls2)
    /\ ls1 !! k = ls !! k
    /\ ls2 !! k = ls !! k.
Proof.
  intros Hk. eexists _, _.
  split; [ apply appendQueryActivity_spec | ].
  split; [ reflexivity | ].
  split; [ by apply lookup_insert_ne | by apply lookup_delete_ne ].
Qed.

(** C2. With a store, an append leaves at most [MAX_ENTRIES] = 200
    entries, in the store and in what is read back: the new entry
    followed by the entries read before, cut after the 200th. What is
    cut is the tail of the old list, from its 200th element on; the new
    entry is the head of what stays. *)
Theorem appendQueryActivity_bounded (ls : gmap string text)
  (e : QueryActivityEntry) :
  exists (g' : global) (before after : list value),
    getQueryActivity (WindowWithStorage ls)
    = (Return before, WindowWithStorage ls)
    /\ appendQueryActivity e (WindowWithStorage ls) = (Return tt, g')
    /\ getQueryActivity g' = (Return after, g')
    /\ (length after <= 200)%nat
    /\ (length (stored_array g') <= MAX_ENTRIES)%nat
    /\ after = take MAX_ENTRIES (json_round_trip (entry_object e) :: before)
    /\ json_round_trip (entry_object e) :: before
       = after ++ drop (MAX_ENTRIES - 1) before
    /\ hd_error after = Some (json_round_trip (entry_object e)).
Proof.
  pose proof (appendQueryActivity_spec ls e) as Happ. cbv zeta in Happ.
  eexists _, _, _.
  split; [ apply getQueryActivity_spec | ].
  split; [ exact Happ | ].
  split; [ apply getQueryActivity_spec | ].
  rewrite (log_after_append ls e _ Happ).
  split; [ rewrite length_take; unfold MAX_ENTRIES; lia | ].
  split.
  { rewrite stored_array_after, length_map, length_take. lia. }
  split; [ reflexivity | ].
  split; [ | reflexivity ].
  change MAX_ENTRIES with (S 199). rewrite firstn_cons. simpl.
  f_equal. symmetry. apply take_drop.
Qed.

(** C6, as the code has it. With a store, after an append the list read
    back starts with the new entry as [JSON.stringify] and [JSON.parse]
    render it; after it come the entries read before the append, in the
    same order, less those beyond the 200-entry bound: none while fewer
    than 200 were read before. *)
Theorem appendQueryActivity_newest_first (ls : gmap string text)
  (e : QueryActivityEntry) :
  exists (g' : global) (before after kept evicted : list value),
    getQueryActivity (WindowWithStorage ls)
    = (Return before, WindowWithStorage ls)
    /\ appendQueryActivity e (WindowWithStorage ls) = (Return tt, g')
    /\ getQueryActivity g' = (Return after, g')
    /\ after = json_round_trip (entry_object e) :: kept
    /\ before = kept ++ evicted
    /\ kept = take (MAX_ENTRIES - 1) before
    /\ length evicted = (length before - (MAX_ENTRIES - 1))%nat.
Proof.
  pose proof (appendQueryActivity_spec ls e) as Happ. cbv zeta in Happ.
  set (before := List.filter is_object (stored_array (WindowWithStorage ls))).
  eexists _, before, _, (take (MAX_ENTRIES - 1) before),
    (drop (MAX_ENTRIES - 1) before).
  split; [ apply getQueryActivity_spec | ].
  split; [ exact Happ | ].
  split; [ apply getQueryActivity_spec | ].
  split; [ exact (log_after_append ls e _ Happ) | ].
  split; [ symmetry; apply take_drop | ].
  split; [ reflexivity | ].
  apply length_drop.
Qed.

(** C6, as stated, fails on a full log. With 200 entries stored, what
    is read after an append is not the new entry followed by the 200
    entries read before: it has 200 elements, and the oldest entry,
    number 199, is gone. *)
Lemma appendQueryActivity_full_log_drops_oldest :
  exists (g' : global) (before after : list value),
    getQueryActivity (WindowWithStorage Samples.full_store)
    = (Return before, WindowWithStorage Samples.full_store)
    /\ appendQueryActivity Samples.answered
         (WindowWithStorage Samples.full_store) = (Return tt, g')
    /\ getQueryActivity g' = (Return after, g')
    /\ length before = 200%nat
    /\ length after = 200%nat
    /\ after <> json_round_trip (entry_object Samples.answered) :: before
    /\ last before = Some (of_json (Samples.numbered 199))
    /\ last after = Some (of_json (Samples.numbered 198)).
Proof.
  pose proof (appendQueryActivity_spec Samples.full_store Samples.answered)
    as Happ. cbv zeta in Happ.
  eexists _, _, _.
  split; [ apply getQueryActivity_spec | ].
  split; [ exact Happ | ].
  split; [ apply getQueryActivity_spec | ].
  rewrite (log_after_append _ _ _ Happ).
  assert (Hbefore :
            List.filter is_object
              (stored_array (WindowWithStorage Samples.full_store))
            = map of_json (map Samples.numbered (seq 0 200))).
  { unfold stored_array, stored_text, Samples.full_store.
    rewrite lookup_singleton_eq. apply filter_all.
    apply Forall_map, Forall_map, Forall_forall. reflexivity. }
  rewrite Hbefore.
  split; [ by rewrite !length_map, length_seq | ].
  split; [ vm_compute; reflexivity | ].
  split.
  { intros Heq. apply (f_equal length) in Heq. vm_compute in Heq.
    discriminate Heq. }
  split; vm_compute; reflexivity.
Qed.

End ActivityLogFacts.

(* ===================================================================== *)
(** ** The activity log: the summary                                      *)
(* ===================================================================== *)

Module SummaryFacts.
Import JS ActivityLog.

(** *** The success rate *)

Lemma inject_nat_pos (n : nat) : n <> 0%nat -> (0 < inject_Z (Z.of_nat n))%Q.
Proof. intros Hn. unfold Qlt. simpl. lia. Qed.

Lemma div_of_nat (a b : nat) :
  b <> 0%nat ->
  div (of_nat a) (of_nat b)
  = Num (inject_Z (Z.of_nat a) / inject_Z (Z.of_nat b)).
Proof.
  intros Hb. unfold div, of_nat.
  destruct (Qeq_bool (inject_Z (Z.of_nat b)) 0) eqn:Hz; [ | reflexivity ].
  apply Qeq_bool_iff in Hz. unfold Qeq in Hz. simpl in Hz. lia.
Qed.

Lemma ratio_bounds (a b : nat) :
  b <> 0%nat -> (a <= b)%nat ->
  (0 <= inject_Z (Z.of_nat a) / inject_Z (Z.of_nat b) <= 1)%Q.
Proof.
  intros Hb Hab. pose proof (inject_nat_pos b Hb) as Hpos. split.
  - apply Qle_shift_div_l; [ exact Hpos | ].
    rewrite Qmult_0_l. unfold Qle. simpl. lia.
  - apply Qle_shift_div_r; [ exact Hpos | ].
    rewrite Qmult_1_l. unfold Qle. simpl. lia.
Qed.

Lemma success_rate_bounds (entries : list QueryActivityEntry) :
  exists q : Q,
    success_rate (summarizeQueryActivity entries) = Num q
    /\ (0 <= q <= 1)%Q.
Proof.
  change (success_rate (summarizeQueryActivity entries))
    with (if (length entries =? 0)%nat then Num 0
          else div (of_nat (length (List.filter success entries)))
                   (of_nat (length entries))).
  destruct (length entries =? 0)%nat eqn:Hlen.
  - exists 0%Q. split; [ reflexivity | ]. split; apply Qle_refl || discriminate.
  - apply Nat.eqb_neq in Hlen. rewrite div_of_nat by exact Hlen.
    eexists. split; [ reflexivity | ].
    apply ratio_bounds; [ exact Hlen | apply filter_length_le ].
Qed.

(** *** The averages *)

Lemma finite_numbers_nil (l : list (option number)) :
  finite_numbers l = [] <-> forall n q, In n l -> n <> Some (Num q).
Proof.
  induction l as [ | n l IH ]; simpl.
  - split; [ intros _ ? ? [] | reflexivity ].
  - split.
    + intros Hnil. apply app_eq_nil in Hnil as [Hn Hl].
      intros m q [<- | Hin]; [ | by apply IH ].
      intros ->. discriminate Hn.
    + intros H. rewrite (proj2 IH) by (intros m q Hin; apply H; by right).
      rewrite app_nil_r.
      destruct n as [ [ q | | | ] | ]; try reflexivity.
      exfalso. apply (H (Some (Num q)) q); [ by left | reflexivity ].
Qed.

Lemma avg_None (nums : list number) : avg nums = None <-> nums = [].
Proof.
  unfold avg. destruct nums; simpl; split; try reflexivity; discriminate.
Qed.

Lemma avg_field_None (f : QueryActivityEntry -> option number)
  (entries : list QueryActivityEntry) :
  avg (finite_numbers (map f entries)) = None
  <-> forall e q, In e entries -> f e <> Some (Num q).
Proof.
  rewrite avg_None, finite_numbers_nil. split.
  - intros H e q Hin. apply H. by apply in_map.
  - intros H n q Hin. apply in_map_iff in Hin as (e & <- & Hin).
    by apply H.
Qed.

(** *** The counts *)

Lemma keys_Map_set (k : string) (v : nat) (m : Map) :
  keys (Map_set k v m) = if decide (k ∈ keys m) then keys m else keys m ++ [k].
Proof.
  induction m as [ | [k' v'] m IH ].
  - destruct (decide (k ∈ keys [])) as [Hin | _]; [ | reflexivity ].
    exfalso. by apply not_elem_of_nil in Hin.
  - cbn [Map_set]. destruct (String.eqb k k') eqn:Hk.
    + apply String.eqb_eq in Hk as ->.
      destruct (decide (k' ∈ keys ((k', v') :: m))) as [_ | Hnin];
        [ reflexivity | ].
      exfalso. apply Hnin. apply list_elem_of_here.
    + apply String.eqb_neq in Hk.
      change (keys ((k', v') :: Map_set k v m))
        with (k' :: keys (Map_set k v m)).
      change (keys ((k', v') :: m)) with (k' :: keys m).
      rewrite IH. rewrite (decide_ext (k ∈ k' :: keys m) (k ∈ keys m)).
      * by destruct (decide (k ∈ keys m)).
      * rewrite elem_of_cons. split; [ intros [? | ?]; congruence | tauto ].
Qed.

Lemma count_sources_fold (entries : list QueryActivityEntry) (m : Map) :
  fold_left count_sources entries m = fold_left bump (all_sources entries) m.
Proof.
  revert m. induction entries as [ | e entries IH ]; intros m; simpl.
  - reflexivity.
  - rewrite fold_left_app, IH. reflexivity.
Qed.

Lemma keys_bump (m : Map) (x : string) :
  keys (bump m x) = if decide (x ∈ keys m) then keys m else keys m ++ [x].
Proof. apply keys_Map_set. Qed.

Lemma keys_bump_elem (l : list string) (m : Map) (s : string) :
  s ∈ keys (fold_left bump l m) <-> s ∈ keys m \/ s ∈ l.
Proof.
  revert m. induction l as [ | x l IH ]; intros m; cbn [fold_left].
  - rewrite elem_of_nil. tauto.
  - rewrite IH, keys_bump, elem_of_cons.
    destruct (decide (x ∈ keys m)) as [Hin | Hnin].
    + split; [ tauto | ]. intros [H | [-> | H]]; tauto.
    + rewrite elem_of_app, list_elem_of_singleton. tauto.
Qed.

Lemma keys_bump_NoDup (l : list string) (m : Map) :
  NoDup (keys m) -> NoDup (keys (fold_left bump l m)).
Proof.
  revert m. induction l as [ | x l IH ]; intros m Hm; cbn [fold_left];
    [ exact Hm | ].
  apply IH. rewrite keys_bump.
  destruct (decide (x ∈ keys m)) as [Hin | Hnin]; [ exact Hm | ].
  apply NoDup_app. split; [ exact Hm | ]. split.
  - intros y Hy Hyx. apply list_elem_of_singleton in Hyx. congruence.
  - apply NoDup_singleton.
Qed.

Lemma Map_get_set_eq (k : string) (v : nat) (m : Map) :
  Map_get k (Map_set k v m) = Some v.
Proof.
  induction m as [ | [k' v'] m IH ]; simpl.
  - by rewrite String.eqb_refl.
  - destruct (String.eqb k k') eqn:Hk; simpl; rewrite Hk; [ reflexivity | ].
    exact IH.
Qed.

Lemma Map_get_set_ne (k k' : string) (v : nat) (m : Map) :
  k <> k' -> Map_get k' (Map_set k v m) = Map_get k' m.
Proof.
  intros Hne. induction m as [ | [k0 v0] m IH ]; simpl.
  - destruct (String.eqb k' k) eqn:Hk; [ | reflexivity ].
    apply String.eqb_eq in Hk. congruence.
  - destruct (String.eqb k k0) eqn:Hk; simpl.
    + apply String.eqb_eq in Hk as <-.
      destruct (String.eqb k' k) eqn:Hk'; [ | reflexivity ].
      apply String.eqb_eq in Hk'. congruence.
    + by rewrite IH.
Qed.

(** Each key counts the occurrences of its source. *)
Lemma Map_get_bump (l : list string) (m : Map) (s : string) :
  Map_get s (fold_left bump l m)
  = match count_occ string_dec l s with
    | O => Map_get s m
    | S c => Some (default 0 (Map_get s m) + S c)%nat
    end.
Proof.
  revert m. induction l as [ | x l IH ]; intros m; cbn [fold_left count_occ].
  - reflexivity.
  - rewrite IH. unfold bump.
    destruct (string_dec x s) as [-> | Hne].
    + rewrite Map_get_set_eq.
      destruct (count_occ string_dec l s); simpl; f_equal; lia.
    + by rewrite Map_get_set_ne.
Qed.

Lemma counts_are_occurrences (entries : list QueryActivityEntry) (s : string) :
  Map_get s (fold_left count_sources entries [])
  = match count_occ string_dec (all_sources entries) s with
    | O => None
    | S c => Some (S c)
    end.
Proof. rewrite count_sources_fold, Map_get_bump. reflexivity. Qed.

Lemma unique_sources_distinct (entries : list QueryActivityEntry) :
  unique_sources_count (summarizeQueryActivity entries)
  = length (remove_dups (all_sources entries)).
Proof.
  change (unique_sources_count (summarizeQueryActivity entries))
    with (length (fold_left count_sources entries [])).
  rewrite count_sources_fold.
  rewrite <- (length_map fst). fold (keys (fold_left bump (all_sources entries) [])).
  apply Permutation_length, NoDup_Permutation.
  - apply keys_bump_NoDup. constructor.
  - apply NoDup_remove_dups.
  - intros s. rewrite keys_bump_elem, elem_of_remove_dups.
    simpl. rewrite elem_of_nil. tauto.
Qed.

(** *** The sort *)

Lemma Forall_insert_by {A} (cmp : A -> A -> Z) (P : A -> Prop) (x : A)
  (l : list A) :
  P x -> Forall P l -> Forall P (insert_by cmp x l).
Proof.
  intros Hx. induction 1 as [ | y r Hy Hr IH ]; simpl.
  - by constructor.
  - destruct (cmp x y <=? 0)%Z; repeat constructor; assumption.
Qed.

Lemma insert_by_count_sorted (x : string * nat) (l : list (string * nat)) :
  StronglySorted entry_desc l ->
  StronglySorted entry_desc (insert_by by_count x l).
Proof.
  induction 1 as [ | y r Hsorted IH Hall ]; simpl.
  - repeat constructor.
  - destruct (by_count x y <=? 0)%Z eqn:Hcmp.
    + apply Z.leb_le in Hcmp. unfold by_count in Hcmp.
      constructor; [ by constructor | ].
      constructor; [ unfold entry_desc; lia | ].
      apply (Forall_impl _ _ _ Hall). unfold entry_desc. lia.
    + apply Z.leb_gt in Hcmp. unfold by_count in Hcmp.
      constructor; [ exact IH | ].
      apply Forall_insert_by; [ unfold entry_desc; lia | exact Hall ].
Qed.

Lemma sort_by_count_sorted (l : list (string * nat)) :
  StronglySorted entry_desc (sort_by by_count l).
Proof.
  induction l as [ | x l IH ]; simpl.
  - constructor.
  - by apply insert_by_count_sorted.
Qed.

Lemma insert_by_Permutation {A} (cmp : A -> A -> Z) (x : A) (l : list A) :
  insert_by cmp x l ≡ₚ x :: l.
Proof.
  induction l as [ | y r IH ]; simpl; [ reflexivity | ].
  destruct (cmp x y <=? 0)%Z; [ reflexivity | ].
  rewrite IH. apply Permutation_swap.
Qed.

(** Sorting loses and invents nothing. *)
Lemma sort_by_Permutation {A} (cmp : A -> A -> Z) (l : list A) :
  sort_by cmp l ≡ₚ l.
Proof.
  induction l as [ | x l IH ]; simpl; [ reflexivity | ].
  by rewrite insert_by_Permutation, IH.
Qed.

Lemma StronglySorted_take {A} (R : A -> A -> Prop) (n : nat) (l : list A) :
  StronglySorted R l -> StronglySorted R (take n l).
Proof.
  intros Hl. revert n. induction Hl as [ | x l Hl IH Hall ]; intros [ | n ];
    simpl; try constructor.
  - apply IH.
  - by apply Forall_take.
Qed.

Lemma top_sources_sorted (entries : list QueryActivityEntry) :
  StronglySorted by_count_desc (top_sources (summarizeQueryActivity entries)).
Proof.
  change (top_sources (summarizeQueryActivity entries))
    with (map (fun '(source, count) => {| source := source; count := count |})
              (take 20 (sort_by by_count
                                (fold_left count_sources entries [])))).
  generalize (StronglySorted_take entry_desc 20 _
                (sort_by_count_sorted (fold_left count_sources entries []))).
  generalize (take 20 (sort_by by_count (fold_left count_sources entries []))).
  intros l. induction 1 as [ | [s c] r Hsorted IH Hall ]; simpl.
  - constructor.
  - constructor; [ exact IH | ].
    apply Forall_map. apply (Forall_impl _ _ _ Hall).
    intros [s' c']. unfold entry_desc, by_count_desc. simpl. lia.
Qed.

Lemma top_sources_length (entries : list QueryActivityEntry) :
  (length (top_sources (summarizeQueryActivity entries)) <= 20)%nat.
Proof.
  unfold summarizeQueryActivity. cbn [top_sources].
  rewrite length_map, length_take. lia.
Qed.

(** A worked summary: two of three queries succeeded; 100 and 201 ms
    average to 151 (150.5 rounds up); NaN and Infinity are left out of
    the averages; b.pdf is cited three times. *)
Example summarizeQueryActivity_sample :
  summarizeQueryActivity [Samples.answered; Samples.failed; Samples.unsourced]
  = {| total_queries := 3;
       success_rate := Num (2 # 3);
       avg_retrieval_time_ms := Some (Num 151);
       avg_generation_time_ms := None;
       avg_total_time_ms := Some (Num 3);
       unique_sources_count := 3;
       top_sources := [ {| source := "b.pdf"; count := 3 |};
                        {| source := "a.pdf"; count := 1 |};
                        {| source := "c.pdf"; count := 1 |} ] |}.
Proof. reflexivity. Qed.

(** C9. For every list of entries: the success rate is a number between
    0 and 1, and 0 for the empty list; at most 20 top sources are listed,
    by non-increasing count; the count of unique sources is the number of
    distinct source strings over all entries; and an average is
    undefined exactly when no entry holds a finite number in its field. *)
Theorem summarizeQueryActivity_properties
  (entries : list QueryActivityEntry) :
  (exists q : Q,
      success_rate (summarizeQueryActivity entries) = Num q
      /\ (0 <= q <= 1)%Q)
  /\ success_rate (summarizeQueryActivity []) = Num 0
  /\ (length (top_sources (summarizeQueryActivity entries)) <= 20)%nat
  /\ StronglySorted by_count_desc
       (top_sources (summarizeQueryActivity entries))
  /\ unique_sources_count (summarizeQueryActivity entries)
     = length (remove_dups (all_sources entries))
  /\ (avg_retrieval_time_ms (summarizeQueryActivity entries) = None
      <-> forall e q, In e entries -> retrieval_time_ms e <> Some (Num q))
  /\ (avg_generation_time_ms (summarizeQueryActivity entries) = None
      <-> forall e q, In e entries -> generation_time_ms e <> Some (Num q))
  /\ (avg_total_time_ms (summarizeQueryActivity entries) = None
      <-> forall e q, In e entries -> total_time_ms e <> Some (Num q)).
Proof.
  split; [ apply success_rate_bounds | ].
  split; [ reflexivity | ].
  split; [ apply top_sources_length | ].
  split; [ apply top_sources_sorted | ].
  split; [ apply unique_sources_distinct | ].
  repeat split; try apply (avg_field_None _ entries).
Qed.

End SummaryFacts.

(* ===================================================================== *)
(** ** The REST client                                                    *)
(* ===================================================================== *)

Module ApiFacts.
Import JS Api.

(** *** Requests *)

Lemma to_json_strings (l : list string) :
  to_json (VArray (map VString l)) = Some (JArray (map JString l)).
Proof.
  simpl. do 2 f_equal. rewrite map_map. apply map_ext. reflexivity.
Qed.

Lemma stringify_query_payload (query language : string)
  (clearance : SecurityLevel) (documentIds : option (list string))
  (fastMode : option bool) :
  JSON_stringify (query_payload query language clearance documentIds fastMode)
  = Document
      (JObject
         [("query", JString query);
          ("language", JString language);
          ("security_clearance", JString (level_name clearance));
          ("document_ids",
           match documentIds with
           | Some ids => JArray (map JString ids)
           | None => JNull
           end);
          ("fast_mode",
           match fastMode with
           | Some b => JBool b
           | None => JNull
           end)]).
Proof.
  unfold JSON_stringify, query_payload.
  destruct documentIds as [ids | ], fastMode as [b | ]; simpl;
    rewrite ?map_map; reflexivity.
Qed.

(** Both calls settle by fulfilling, whatever the network does. *)
Lemma queryRAG_never_rejects (query : string) (language : option string)
  (clearance : option SecurityLevel) (documentIds : option (list string))
  (fastMode : option bool) (fetch : request -> fetch_result) :
  exists v : value,
    settled (queryRAG query language clearance documentIds fastMode fetch)
    = Return v.
Proof.
  unfold queryRAG. destruct (try_fetch_json _ _ _); eexists; reflexivity.
Qed.

Lemma autoDetectSecurity_never_rejects (documentIds : list string)
  (fetch : request -> fetch_result) :
  exists v : value, settled (autoDetectSecurity documentIds fetch) = Return v.
Proof.
  unfold autoDetectSecurity. destruct (try_fetch_json _ _ _);
    eexists; reflexivity.
Qed.

(** A failed or unreadable call makes the [try] block throw. *)
Lemma try_fetch_json_failed (fetch : request -> fetch_result) (r : request)
  (failure : string) :
  call_failed (fetch r) || unreadable (fetch r) = true ->
  exists e : error, try_fetch_json fetch r failure = Throw e.
Proof.
  unfold try_fetch_json, call_failed, unreadable.
  destruct (fetch r) as [e | ok statusText payload].
  - intros _. by exists e.
  - destruct ok; simpl.
    + destruct (response_json payload) as [v | e]; [ discriminate | ].
      intros _. by exists e.
    + intros _. eexists. reflexivity.
Qed.

(** X21. A readable answer to a successful call is passed on as it is:
    when the response is ok and its body is a JSON text, [queryRAG]
    fulfils with the parsed document, whatever it is (null or a number as
    well as an object), with no check of its shape. *)
Lemma queryRAG_passes_answer (query : string) (language : option string)
  (clearance : option SecurityLevel) (documentIds : option (list string))
  (fastMode : option bool) (fetch : request -> fetch_result)
  (statusText : string) (j : json) :
  fetch (query_request query (default "en" language)
                       (default CONFIDENTIAL clearance) documentIds fastMode)
  = Response true statusText (Document j) ->
  settled (queryRAG query language clearance documentIds fastMode fetch)
  = Return (of_json j).
Proof.
  intros Hfetch. unfold queryRAG, try_fetch_json. rewrite Hfetch. reflexivity.
Qed.

(** *** Strings *)

Example not_blank_cases :
  not_blank "" = false
  /\ not_blank "   " = false
  /\ not_blank Samples.wide_blank = false
  /\ not_blank " LLaMA 3.2 8B " = true
  /\ code_points "본 a" = [48376; 32; 97]%N.
Proof. repeat split; reflexivity. Qed.

(** *** [normalizeSystemConfig] *)

(** A legacy answer of the backend: the singular language_model is
    lifted and the ill-typed chunk_size gives way to the default. *)
Example normalizeSystemConfig_legacy :
  normalizeSystemConfig
    (VObject [("language_model", VString "Mistral 7B");
              ("chunk_size", VString "512")])
  = VObject
      [("embedding_model", VString "Qwen/Qwen3-VL-Embedding-2B");
       ("language_models", VArray [VString "Mistral 7B"]);
       ("vector_database", VString "Qdrant");
       ("chunk_size", num 512);
       ("chunk_overlap", num 50);
       ("storage_path", VString "qdrant://localhost:6333")].
Proof. reflexivity. Qed.

Lemma is_model_name_string (v : value) :
  is_model_name v = true -> exists s, v = VString s /\ not_blank s = true.
Proof.
  destruct v; try discriminate. simpl. intros H. eexists. by split.
Qed.

Lemma filter_model_names_strings (items : list value) :
  forallb is_string (List.filter is_model_name items) = true.
Proof.
  apply forallb_forall. intros v Hv. apply filter_In in Hv as [_ Hv].
  apply is_model_name_string in Hv as (s & -> & _). reflexivity.
Qed.

Lemma if_typeof_string (v d : value) :
  if_typeof "string" v d = if is_string v then v else d.
Proof. by destruct v. Qed.

Lemma if_typeof_number (v d : value) :
  if_typeof "number" v d = if is_number v then v else d.
Proof. by destruct v. Qed.

(** The guard lets through objects and arrays only. *)
Lemma normalize_guard (raw : value) :
  negb (truthy raw) || negb (String.eqb (typeof raw) "object")
  = negb (match raw with VObject _ | VArray _ => true | _ => false end).
Proof.
  destruct raw as [ | | b | n | s | l | m ]; try reflexivity.
  - simpl. by destruct b.
  - simpl. apply orb_true_r.
  - simpl. apply orb_true_r.
Qed.

(** Reading a property the guard would not let through gives nothing. *)
Lemma get_non_object (raw : value) (k : string) :
  match raw with VObject _ => false | _ => true end = true ->
  get raw k = VUndefined.
Proof. by destruct raw. Qed.

Lemma normalizeSystemConfig_typed (raw : value) :
  is_SystemConfig (normalizeSystemConfig raw) = true.
Proof.
  unfold normalizeSystemConfig.
  destruct (negb (truthy raw) || negb (String.eqb (typeof raw) "object"));
    [ reflexivity | ].
  unfold is_SystemConfig. cbn [get lookup_prop String.eqb Ascii.eqb Bool.eqb].
  rewrite !if_typeof_string, !if_typeof_number.
  repeat (apply andb_true_intro; split).
  - by destruct (get raw "embedding_model").
  - destruct (get raw "language_models") as [ | | | | | items | ];
      try (destruct (is_model_name (get raw "language_model")) eqn:Hm;
           [ apply is_model_name_string in Hm as (name & -> & _) | ];
           reflexivity).
    apply filter_model_names_strings.
  - by destruct (get raw "vector_database").
  - by destruct (get raw "chunk_size").
  - by destruct (get raw "chunk_overlap").
  - by destruct (get raw "storage_path").
Qed.

(** The fields of the result, one by one. *)
Lemma normalizeSystemConfig_fields (raw : value) :
  get (normalizeSystemConfig raw) "embedding_model"
  = if_typeof "string" (get raw "embedding_model")
              (get mockConfig "embedding_model")
  /\ get (normalizeSystemConfig raw) "vector_database"
     = if_typeof "string" (get raw "vector_database")
                 (get mockConfig "vector_database")
  /\ get (normalizeSystemConfig raw) "storage_path"
     = if_typeof "string" (get raw "storage_path")
                 (get mockConfig "storage_path")
  /\ get (normalizeSystemConfig raw) "chunk_size"
     = if_typeof "number" (get raw "chunk_size") (get mockConfig "chunk_size")
  /\ get (normalizeSystemConfig raw) "chunk_overlap"
     = if_typeof "number" (get raw "chunk_overlap")
                 (get mockConfig "chunk_overlap")
  /\ get (normalizeSystemConfig raw) "language_models"
     = match get raw "language_models" with
       | VArray items => VArray (List.filter is_model_name items)
       | _ =>
           if is_model_name (get raw "language_model")
           then VArray [get raw "language_model"]
           else get mockConfig "language_models"
       end.
Proof.
  unfold normalizeSystemConfig. rewrite normalize_guard.
  destruct raw as [ | | b | n | s | l | m ]; repeat split; reflexivity.
Qed.

(** C10, as the code has it. For every input the result is an object
    with the six properties of [SystemConfig], each of its declared
    type. A string or number property of the input is kept when it has
    its declared type and is else the default of [mockConfig]. An array
    under language_models is kept, less its elements that are not
    non-blank strings, which may leave it empty; with no array there, a
    non-blank string under language_model becomes a one-element array;
    else language_models is the default. *)
Theorem normalizeSystemConfig_total (raw : value) :
  is_SystemConfig (normalizeSystemConfig raw) = true
  /\ (exists props,
         normalizeSystemConfig raw = VObject props
         /\ map fst props
            = ["embedding_model"; "language_models"; "vector_database";
               "chunk_size"; "chunk_overlap"; "storage_path"])
  /\ (forall k, In k ["embedding_model"; "vector_database"; "storage_path"] ->
      get (normalizeSystemConfig raw) k
      = if is_string (get raw k) then get raw k else get mockConfig k)
  /\ (forall k, In k ["chunk_size"; "chunk_overlap"] ->
      get (normalizeSystemConfig raw) k
      = if is_number (get raw k) then get raw k else get mockConfig k)
  /\ (forall items, get raw "language_models" = VArray items ->
      get (normalizeSystemConfig raw) "language_models"
      = VArray (List.filter is_model_name items))
  /\ (forall s, isArray (get raw "language_models") = false ->
      get raw "language_model" = VString s -> not_blank s = true ->
      get (normalizeSystemConfig raw) "language_models" = VArray [VString s])
  /\ (isArray (get raw "language_models") = false ->
      is_model_name (get raw "language_model") = false ->
      get (normalizeSystemConfig raw) "language_models"
      = get mockConfig "language_models").
Proof.
  destruct (normalizeSystemConfig_fields raw)
    as (He & Hv & Hs & Hc & Ho & Hl).
  rewrite if_typeof_string in He, Hv, Hs.
  rewrite if_typeof_number in Hc, Ho.
  split; [ apply normalizeSystemConfig_typed | ].
  split.
  { unfold normalizeSystemConfig.
    destruct (negb (truthy raw) || negb (String.eqb (typeof raw) "object"));
      eexists; split; reflexivity. }
  split.
  { intros k [<- | [<- | [<- | []]]]; assumption. }
  split.
  { intros k [<- | [<- | []]]; assumption. }
  split.
  { intros items Hitems. by rewrite Hl, Hitems. }
  split.
  { intros s Harr Hlegacy Hblank. rewrite Hl, Hlegacy.
    assert (Hm : is_model_name (VString s) = true).
    { unfold is_model_name. rewrite Hblank. reflexivity. }
    rewrite Hm.
    by destruct (get raw "language_models"); try discriminate Harr. }
  intros Harr Hlegacy. rewrite Hl, Hlegacy.
  by destruct (get raw "language_models"); try discriminate Harr.
Qed.

(** C10, as stated, fails on language_models. An array of numbers there
    is a wrongly-typed field, yet the result holds the empty array and
    not the default; and a legacy language_model string made of one
    space is not lifted: the result holds the default. *)
Lemma normalizeSystemConfig_models_not_defaulted :
  let wrong := VObject [("language_models", VArray [num 512])] in
  let legacy := VObject [("language_model", VString " ")] in
  is_string_array (get wrong "language_models") = false
  /\ get (normalizeSystemConfig wrong) "language_models" = VArray []
  /\ get (normalizeSystemConfig wrong) "language_models"
     <> get mockConfig "language_models"
  /\ is_string (get legacy "language_model") = true
  /\ get (normalizeSystemConfig legacy) "language_models"
     = get mockConfig "language_models"
  /\ get (normalizeSystemConfig legacy) "language_models"
     <> VArray [VString " "].
Proof.
  cbv zeta. repeat split; try reflexivity; discriminate.
Qed.

(** [getSystemConfig]'s fallback, [normalizeSystemConfig(mockConfig)],
    is [mockConfig]. *)
Lemma normalizeSystemConfig_mockConfig :
  normalizeSystemConfig mockConfig = mockConfig.
Proof. reflexivity. Qed.

(** *** [queryRAG] *)

(** C5. Each call of [queryRAG] sends one request, a POST to /query,
    whose body is the text of an object with exactly the members query,
    language, security_clearance, document_ids and fast_mode, in this
    order, holding the arguments as given (the defaults "en" and
    CONFIDENTIAL for an omitted language or clearance; null for absent
    document ids or fast mode). *)
Theorem queryRAG_request_body (query : string) (language : option string)
  (clearance : option SecurityLevel) (documentIds : option (list string))
  (fastMode : option bool) (fetch : request -> fetch_result) :
  exists (r : request) (rest : list event),
    trace (queryRAG query language clearance documentIds fastMode fetch)
    = Fetched r :: rest
    /\ Forall (fun ev => forall r', ev <> Fetched r') rest
    /\ url r = "http://localhost:8000/query"
    /\ method r = "POST"
    /\ body r
       = Some (Document
                 (JObject
                    [("query", JString query);
                     ("language", JString (default "en" language));
                     ("security_clearance",
                      JString (level_name (default CONFIDENTIAL clearance)));
                     ("document_ids",
                      match documentIds with
                      | Some ids => JArray (map JString ids)
                      | None => JNull
                      end);
                     ("fast_mode",
                      match fastMode with
                      | Some b => JBool b
                      | None => JNull
                      end)])).
Proof.
  unfold queryRAG.
  destruct (try_fetch_json _ _ _) as [v | e]; cbn [trace];
    eexists _, _; (split; [ reflexivity | ]);
    (split; [ repeat constructor; discriminate | ]);
    (split; [ reflexivity | ]); (split; [ reflexivity | ]);
    cbn [body query_request]; by rewrite stringify_query_payload.
Qed.

(** C1, as the code has it. When the call fails (fetch rejects, or the
    response is not ok) [queryRAG] does not reject: it warns on the
    console, waits 1500 ms and fulfils with the simulated response built
    around the query. *)
Theorem queryRAG_failure_simulated (query : string)
  (language : option string) (clearance : option SecurityLevel)
  (documentIds : option (list string)) (fastMode : option bool)
  (fetch : request -> fetch_result) :
  call_failed
    (fetch (query_request query (default "en" language)
                          (default CONFIDENTIAL clearance)
                          documentIds fastMode)) = true ->
  settled (queryRAG query language clearance documentIds fastMode fetch)
  = Return (simulated_response query)
  /\ exists e : error,
      trace (queryRAG query language clearance documentIds fastMode fetch)
      = [Fetched (query_request query (default "en" language)
                                (default CONFIDENTIAL clearance)
                                documentIds fastMode);
         Warned "Using mock response for query:" e;
         Delayed 1500].
Proof.
  intros Hfail. unfold queryRAG.
  destruct (try_fetch_json_failed fetch _ "Query failed: "
              (orb_true_intro _ _ (or_introl Hfail))) as [e ->].
  split; [ reflexivity | ]. by exists e.
Qed.

Lemma queryRAG_failure_simulated_witness :
  settled (queryRAG "What is the energy capacity?" None None None None
                    (fun _ => NetworkFailure (Error "Failed to fetch")))
  = Return (simulated_response "What is the energy capacity?")
  /\ exists e : error,
      trace (queryRAG "What is the energy capacity?" None None None None
                      (fun _ => NetworkFailure (Error "Failed to fetch")))
      = [Fetched (query_request "What is the energy capacity?" "en"
                                CONFIDENTIAL None None);
         Warned "Using mock response for query:" e;
         Delayed 1500].
Proof.
  apply (queryRAG_failure_simulated "What is the energy capacity?" None None
           None None (fun _ => NetworkFailure (Error "Failed to fetch"))).
  reflexivity.
Defined.

(** C1, as stated, fails: with the network down, and with a response
    that is not ok, the call fails and yet the promise is fulfilled, with
    the simulated answer, and is rejected with no reason whatever. *)
Lemma queryRAG_failure_not_surfaced :
  let down := fun _ : request => NetworkFailure (Error "Failed to fetch") in
  let refused := fun _ : request =>
                   Response false "Internal Server Error" Malformed in
  let q := "What is the energy capacity?" in
  call_failed (down (query_request q "en" CONFIDENTIAL None None)) = true
  /\ settled (queryRAG q None None None None down)
     = Return (simulated_response q)
  /\ (forall e, settled (queryRAG q None None None None down) <> Throw e)
  /\ call_failed (refused (query_request q "en" CONFIDENTIAL None None)) = true
  /\ settled (queryRAG q None None None None refused)
     = Return (simulated_response q)
  /\ (forall e, settled (queryRAG q None None None None refused) <> Throw e).
Proof.
  cbv zeta. repeat split; try reflexivity; intros e; discriminate.
Qed.

(** *** [autoDetectSecurity] *)

(** C3. When the call fails, or its answer cannot be read,
    [autoDetectSecurity] fulfils (it does not reject) with detected level
    PUBLIC, confidence 0, no findings, and a recommendation that says
    "Defaulting to PUBLIC". *)
Theorem autoDetectSecurity_failure_default (documentIds : list string)
  (fetch : request -> fetch_result) :
  call_failed (fetch (detect_request documentIds))
  || unreadable (fetch (detect_request documentIds)) = true ->
  exists v : value,
    settled (autoDetectSecurity documentIds fetch) = Return v
    /\ get v "detected_level" = VString (level_name PUBLIC)
    /\ get v "confidence" = num 0
    /\ get v "findings_count" = num 0
    /\ get v "findings" = VArray []
    /\ exists s : string,
        get v "recommendation" = VString s
        /\ includes s "Defaulting to PUBLIC" = true.
Proof.
  intros Hfail. unfold autoDetectSecurity.
  destruct (try_fetch_json_failed fetch _ "Security auto-detect failed: "
              Hfail) as [e ->].
  exists default_detection. repeat split.
  eexists. split; reflexivity.
Qed.

Lemma autoDetectSecurity_failure_default_witness :
  exists v : value,
    settled (autoDetectSecurity ["doc-1"; "doc-2"]
               (fun _ => Response false "Service Unavailable" EmptyText))
    = Return v
    /\ get v "detected_level" = VString (level_name PUBLIC)
    /\ get v "confidence" = num 0
    /\ get v "findings_count" = num 0
    /\ get v "findings" = VArray []
    /\ exists s : string,
        get v "recommendation" = VString s
        /\ includes s "Defaulting to PUBLIC" = true.
Proof.
  apply (autoDetectSecurity_failure_default ["doc-1"; "doc-2"]
           (fun _ => Response false "Service Unavailable" EmptyText)).
  reflexivity.
Defined.

(** C4, at the failing input. With the network down the result names
    the level PUBLIC and carries level value 1, while the ordinal of
    PUBLIC is 0 (and 1 is the ordinal of INTERNAL). *)
Lemma autoDetectSecurity_fallback_level_value :
  exists v : value,
    settled (autoDetectSecurity ["doc-1"]
               (fun _ => NetworkFailure (Error "Failed to fetch")))
    = Return v
    /\ get v "detected_level" = VString (level_name PUBLIC)
    /\ get v "level_value" = num 1
    /\ level_value PUBLIC = 0%Z
    /\ level_value INTERNAL = 1%Z
    /\ get v "level_value" <> num (level_value PUBLIC).
Proof.
  exists default_detection. repeat split. discriminate.
Qed.

End ApiFacts.

(* ===================================================================== *)
(** ** The activity log: further properties                               *)
(* ===================================================================== *)

Module ActivityLogMore.
Import JS ActivityLog JSFacts ActivityLogFacts Runs.

Lemma read_after_append (ls : gmap string text) (e : QueryActivityEntry) :
  exists g' : global,
    appendQueryActivity e (WindowWithStorage ls) = (Return tt, g')
    /\ getQueryActivity g'
       = (Return (json_round_trip (entry_object e)
                  :: take (MAX_ENTRIES - 1)
                       (List.filter is_object
                          (stored_array (WindowWithStorage ls)))), g').
Proof.
  pose proof (appendQueryActivity_spec ls e) as Happ. cbv zeta in Happ.
  eexists. split; [ exact Happ | ].
  rewrite getQueryActivity_spec. do 2 f_equal.
  exact (log_after_append ls e _ Happ).
Qed.

Lemma read_inv (g : global) (l : list value) :
  getQueryActivity g = (Return l, g) ->
  List.filter is_object (stored_array g) = l.
Proof. rewrite getQueryActivity_spec. congruence. Qed.

(** X1. With a store, an entry whose optional numbers are all finite is
    read back exactly as it was appended: it is the first element of what
    [getQueryActivity] returns next. *)
Theorem append_then_read_finite (ls : gmap string text)
  (e : QueryActivityEntry) :
  finite_entry e = true ->
  exists (g' : global) (rest : list value),
    appendQueryActivity e (WindowWithStorage ls) = (Return tt, g')
    /\ getQueryActivity g' = (Return (entry_object e :: rest), g').
Proof.
  intros Hfin. destruct (read_after_append ls e) as (g' & Happ & Hget).
  exists g'. eexists. split; [ exact Happ | ].
  rewrite Hget. by rewrite (json_round_trip_finite_entry e Hfin).
Qed.

Lemma append_then_read_finite_witness :
  exists (g' : global) (rest : list value),
    appendQueryActivity Samples.failed (WindowWithStorage Samples.mixed_store)
    = (Return tt, g')
    /\ getQueryActivity g'
       = (Return (entry_object Samples.failed :: rest), g').
Proof.
  apply (append_then_read_finite Samples.mixed_store Samples.failed).
  reflexivity.
Defined.

Lemma other_keys_untouched_witness :
  exists ls1 ls2 : gmap string text,
    appendQueryActivity Samples.answered (WindowWithStorage Samples.mixed_store)
    = (Return tt, WindowWithStorage ls1)
    /\ clearQueryActivity (WindowWithStorage Samples.mixed_store)
       = (Return tt, WindowWithStorage ls2)
    /\ ls1 !! "theme" = Samples.mixed_store !! "theme"
    /\ ls2 !! "theme" = Samples.mixed_store !! "theme".
Proof.
  apply (other_keys_untouched Samples.mixed_store Samples.answered "theme").
  discriminate.
Defined.

(** X3. Where there is no [window], or a [window] without
    [localStorage], the three operations return normally and leave the
    host as it is, and the log reads as empty: the store operations,
    which would throw there, are never reached. *)
Theorem without_storage_nothing_happens (e : QueryActivityEntry)
  (g : global) :
  (forall ls, g <> WindowWithStorage ls) ->
  appendQueryActivity e g = (Return tt, g)
  /\ clearQueryActivity g = (Return tt, g)
  /\ getQueryActivity g = (Return [], g)
  /\ exists err, removeItem STORAGE_KEY g = (Throw err, g).
Proof.
  intros Hno. destruct g as [ | | ls ]; [ | | by destruct (Hno ls) ];
    repeat split; eexists; reflexivity.
Qed.

Lemma without_storage_nothing_happens_witness :
  appendQueryActivity Samples.answered NoWindow = (Return tt, NoWindow)
  /\ clearQueryActivity NoWindow = (Return tt, NoWindow)
  /\ getQueryActivity NoWindow = (Return [], NoWindow)
  /\ exists err, removeItem STORAGE_KEY NoWindow = (Throw err, NoWindow).
Proof.
  apply (without_storage_nothing_happens Samples.answered NoWindow).
  intros ls. discriminate.
Defined.

(** X4. When nothing can be read from the store (no key, an empty or
    malformed text, a JSON value that is not an array, an array with no
    object in it), an append starts a fresh log: what is read next is the
    new entry alone. *)
Theorem append_starts_fresh_log (ls : gmap string text)
  (e : QueryActivityEntry) :
  getQueryActivity (WindowWithStorage ls)
  = (Return [], WindowWithStorage ls) ->
  exists g' : global,
    appendQueryActivity e (WindowWithStorage ls) = (Return tt, g')
    /\ getQueryActivity g'
       = (Return [json_round_trip (entry_object e)], g').
Proof.
  intros Hempty. apply read_inv in Hempty.
  destruct (read_after_append ls e) as (g' & Happ & Hget).
  exists g'. split; [ exact Happ | ]. rewrite Hget, Hempty. reflexivity.
Qed.

Lemma append_starts_fresh_log_witness :
  exists g' : global,
    appendQueryActivity Samples.answered
      (WindowWithStorage {[ STORAGE_KEY := Malformed ]}) = (Return tt, g')
    /\ getQueryActivity g'
       = (Return [json_round_trip (entry_object Samples.answered)], g').
Proof.
  apply (append_starts_fresh_log {[ STORAGE_KEY := Malformed ]}
           Samples.answered).
  reflexivity.
Defined.

(** X23. An append leaves the store clean: with a store, whatever it
    held before, after an append it holds the text of an array whose
    elements are all objects, so the next read returns every stored
    element and drops none. *)
Theorem append_leaves_clean_store (ls : gmap string text)
  (e : QueryActivityEntry) :
  exists (g' : global) (items : list json),
    appendQueryActivity e (WindowWithStorage ls) = (Return tt, g')
    /\ stored_text g' = Some (Document (JArray items))
    /\ Forall (fun v => is_object v = true) (map of_json items)
    /\ getQueryActivity g' = (Return (map of_json items), g').
Proof.
  pose proof (appendQueryActivity_spec ls e) as Happ. cbv zeta in Happ.
  set (next := take MAX_ENTRIES
                 (entry_object e
                  :: List.filter is_object
                       (stored_array (WindowWithStorage ls)))) in Happ.
  exists (WindowWithStorage
            (<[STORAGE_KEY := JSON_stringify (VArray next)]> ls)),
    (map (fun x => match to_json x with
                   | Some j => j
                   | None => JNull
                   end) next).
  assert (Hstored :
            stored_array
              (WindowWithStorage
                 (<[STORAGE_KEY := JSON_stringify (VArray next)]> ls))
            = map element_round_trip next) by apply stored_array_after.
  assert (Hall : Forall (fun v => is_object v = true)
                        (map element_round_trip next)).
  { apply Forall_map. unfold next. change MAX_ENTRIES with (S 199).
    rewrite firstn_cons. constructor; [ reflexivity | ].
    apply Forall_take.
    apply (Forall_impl _ _ _ (Forall_is_object_filter _)).
    intros x Hx. by apply is_object_round_trip. }
  rewrite map_map. fold element_round_trip.
  split; [ exact Happ | ].
  split.
  { unfold stored_text. rewrite lookup_insert_eq. reflexivity. }
  split; [ exact Hall | ].
  rewrite getQueryActivity_spec, Hstored. by rewrite (filter_all _ _ Hall).
Qed.

Lemma take_app_take {A} (n : nat) (l k : list A) :
  take n (l ++ take n k) = take n (l ++ k).
Proof.
  rewrite !take_app, take_take. do 2 f_equal. lia.
Qed.

Lemma append_all_log (es : list QueryActivityEntry) :
  forall (ls : gmap string text) (e : QueryActivityEntry),
  exists ls' : gmap string text,
    append_all (e :: es) (WindowWithStorage ls)
    = (Return tt, WindowWithStorage ls')
    /\ List.filter is_object (stored_array (WindowWithStorage ls'))
       = take MAX_ENTRIES
           (rev (map (fun x => json_round_trip (entry_object x)) (e :: es))
            ++ List.filter is_object (stored_array (WindowWithStorage ls))).
Proof.
  induction es as [ | e2 rest IH ]; intros ls e.
  - pose proof (appendQueryActivity_spec ls e) as Happ. cbv zeta in Happ.
    eexists. split.
    + cbn [append_all]. unfold bind. rewrite Happ. reflexivity.
    + exact (log_after_append ls e _ Happ).
  - pose proof (appendQueryActivity_spec ls e) as Happ. cbv zeta in Happ.
    pose proof (log_after_append ls e _ Happ) as Hlog. cbv zeta in Hlog.
    set (ls1 := <[STORAGE_KEY := JSON_stringify
                    (VArray (take MAX_ENTRIES
                               (entry_object e
                                :: List.filter is_object
                                     (stored_array (WindowWithStorage ls)))))]>
                  ls) in *.
    destruct (IH ls1 e2) as (ls' & Hrun & Hlog').
    exists ls'. split.
    + change (append_all (e :: e2 :: rest))
        with (bind (appendQueryActivity e)
                   (fun _ => append_all (e2 :: rest))).
      unfold bind at 1. rewrite Happ. exact Hrun.
    + rewrite Hlog', Hlog, take_app_take.
      f_equal. cbn [map rev]. by rewrite <- !app_assoc.
Qed.

(** X5. With a store, after appending entries one after another the log
    reads newest first: the entries in the reverse of the order they
    were appended, then the entries read before, the whole cut after the
    200th; so its length is the smaller of 200 and the number appended
    plus the number read before. *)
Theorem append_all_newest_first (ls : gmap string text)
  (e : QueryActivityEntry) (es : list QueryActivityEntry) :
  exists (g' : global) (before after : list value),
    getQueryActivity (WindowWithStorage ls)
    = (Return before, WindowWithStorage ls)
    /\ append_all (e :: es) (WindowWithStorage ls) = (Return tt, g')
    /\ getQueryActivity g' = (Return after, g')
    /\ after
       = take MAX_ENTRIES
           (rev (map (fun x => json_round_trip (entry_object x)) (e :: es))
            ++ before)
    /\ length after = (MAX_ENTRIES `min` (S (length es) + length before))%nat.
Proof.
  destruct (append_all_log es ls e) as (ls' & Hrun & Hlog).
  eexists _, _, _.
  split; [ apply getQueryActivity_spec | ].
  split; [ exact Hrun | ].
  split; [ apply getQueryActivity_spec | ].
  split; [ exact Hlog | ].
  rewrite Hlog, length_take, length_app, length_rev, length_map.
  reflexivity.
Qed.

(** X6. Clearing undoes appending: with a store, an append followed by a
    clear leaves the host exactly as a clear alone does; and an append
    made after a clear leaves a log of the new entry alone. *)
Theorem clear_erases_append (ls : gmap string text)
  (e : QueryActivityEntry) :
  exists g1 g2 g3 : global,
    clearQueryActivity (WindowWithStorage ls) = (Return tt, g1)
    /\ appendQueryActivity e (WindowWithStorage ls) = (Return tt, g2)
    /\ clearQueryActivity g2 = (Return tt, g1)
    /\ appendQueryActivity e g1 = (Return tt, g3)
    /\ getQueryActivity g3
       = (Return [json_round_trip (entry_object e)], g3).
Proof.
  pose proof (appendQueryActivity_spec ls e) as Happ. cbv zeta in Happ.
  destruct (read_after_append (delete STORAGE_KEY ls) e)
    as (g3 & Happ3 & Hget3).
  exists (WindowWithStorage (delete STORAGE_KEY ls)). eexists. exists g3.
  split; [ reflexivity | ].
  split; [ exact Happ | ].
  split.
  { unfold clearQueryActivity. run_M. by rewrite delete_insert_eq. }
  split; [ exact Happ3 | ].
  rewrite Hget3. unfold stored_array, stored_text.
  rewrite lookup_delete_eq. reflexivity.
Qed.

End ActivityLogMore.

(* ===================================================================== *)
(** ** The summary: further properties                                    *)
(* ===================================================================== *)

Module SummaryMore.
Import JS ActivityLog SummaryFacts Runs.

(** *** The top sources *)

Lemma Map_get_In (s : string) (c : nat) (m : Map) :
  Map_get s m = Some c -> In (s, c) m.
Proof.
  induction m as [ | [k v] m IH ]; simpl; [ discriminate | ].
  destruct (String.eqb s k) eqn:Hk.
  - apply String.eqb_eq in Hk as ->. intros [= ->]. by left.
  - intros H. right. by apply IH.
Qed.

Lemma In_Map_get (s : string) (c : nat) (m : Map) :
  NoDup (keys m) -> In (s, c) m -> Map_get s m = Some c.
Proof.
  induction m as [ | [k v] m IH ]; simpl; [ intros _ [] | ].
  intros Hnd Hin. apply NoDup_cons in Hnd as [Hk Hnd].
  destruct Hin as [[= -> ->] | Hin].
  - by rewrite String.eqb_refl.
  - destruct (String.eqb s k) eqn:Hsk.
    + apply String.eqb_eq in Hsk as ->. exfalso. apply Hk.
      apply list_elem_of_In. unfold keys.
      apply in_map_iff. by exists (k, c).
    + by apply IH.
Qed.

Lemma top_sources_unfold (entries : list QueryActivityEntry) :
  top_sources (summarizeQueryActivity entries)
  = map as_top
        (take 20 (sort_by by_count (fold_left count_sources entries []))).
Proof. reflexivity. Qed.

Lemma counts_NoDup (entries : list QueryActivityEntry) :
  NoDup (keys (fold_left count_sources entries [])).
Proof. rewrite count_sources_fold. apply keys_bump_NoDup. constructor. Qed.

(** X7. The top sources are the most cited ones: they are distinct;
    there are 20 of them, or as many as there are distinct sources if
    fewer; each carries as its count the number of times it occurs over
    all entries; and no source left out occurs more often than a listed
    one. *)
Theorem top_sources_most_cited (entries : list QueryActivityEntry) :
  let tops := top_sources (summarizeQueryActivity entries) in
  NoDup (map source tops)
  /\ length tops
     = (20 `min` unique_sources_count (summarizeQueryActivity entries))%nat
  /\ (forall t, In t tops ->
      count t = count_occ string_dec (all_sources entries) (source t)
      /\ (1 <= count t)%nat)
  /\ (forall s t, In s (all_sources entries) -> ~ In s (map source tops) ->
      In t tops ->
      (count_occ string_dec (all_sources entries) s <= count t)%nat).
Proof.
  cbv zeta. rewrite top_sources_unfold.
  set (counts := fold_left count_sources entries []).
  set (sorted := sort_by by_count counts).
  assert (Hperm : sorted ≡ₚ counts) by apply sort_by_Permutation.
  assert (Hnd : NoDup (keys counts)) by apply counts_NoDup.
  assert (Hsrc : map source (map as_top (take 20 sorted))
                 = take 20 (keys sorted)).
  { rewrite map_map. unfold keys. rewrite <- firstn_map. f_equal.
    apply map_ext. by intros [s c]. }
  assert (Hin : forall s c, In (s, c) (take 20 sorted) -> In (s, c) counts).
  { intros s c H. apply list_elem_of_In. rewrite <- Hperm.
    apply list_elem_of_In in H. by eapply subseteq_take. }
  assert (Hocc : forall s c, In (s, c) counts ->
                 c = count_occ string_dec (all_sources entries) s
                 /\ (1 <= c)%nat).
  { intros s c H. apply (In_Map_get _ _ _ Hnd) in H.
    unfold counts in H. rewrite counts_are_occurrences in H.
    destruct (count_occ string_dec (all_sources entries) s);
      [ discriminate | ].
    injection H as <-. split; [ reflexivity | lia ]. }
  split.
  { rewrite Hsrc. apply (sublist_NoDup _ (keys sorted));
      [ | apply sublist_take ].
    unfold keys. by rewrite Hperm. }
  split.
  { rewrite length_map, length_take.
    change (unique_sources_count (summarizeQueryActivity entries))
      with (length counts).
    by rewrite (Permutation_length Hperm). }
  split.
  { intros t Ht. apply in_map_iff in Ht as ([s c] & <- & Ht).
    simpl. apply Hocc. by apply Hin. }
  intros s t Hs Hout Ht.
  apply in_map_iff in Ht as ([s' c'] & <- & Ht). simpl.
  assert (Hc : In (s, count_occ string_dec (all_sources entries) s) counts).
  { apply Map_get_In. unfold counts. rewrite counts_are_occurrences.
    apply (count_occ_In string_dec) in Hs.
    destruct (count_occ string_dec (all_sources entries) s);
      [ lia | reflexivity ]. }
  apply list_elem_of_In in Hc. rewrite <- Hperm in Hc.
  rewrite <- (take_drop 20 sorted) in Hc.
  apply elem_of_app in Hc as [Hc | Hc].
  - exfalso. apply Hout. rewrite Hsrc. unfold keys. rewrite firstn_map.
    apply in_map_iff. eexists. split; [ | by apply list_elem_of_In ].
    reflexivity.
  - pose proof (sort_by_count_sorted counts) as Hsorted.
    fold sorted in Hsorted. rewrite <- (take_drop 20 sorted) in Hsorted.
    apply list_elem_of_In in Ht.
    exact (StronglySorted_app_1_elem_of _ _ _ _ _ Hsorted Ht Hc).
Qed.

(** *** The success rate *)

Lemma ratio_one (x y : Q) : (0 < y)%Q -> (x / y == 1 <-> x == y)%Q.
Proof.
  intros Hy. split; intros H.
  - assert (Hx : (x == x / y * y)%Q) by (field; lra).
    rewrite Hx, H. ring.
  - rewrite H. field. lra.
Qed.

Lemma ratio_zero (x y : Q) : (0 < y)%Q -> (x / y == 0 <-> x == 0)%Q.
Proof.
  intros Hy. split; intros H.
  - assert (Hx : (x == x / y * y)%Q) by (field; lra).
    rewrite Hx, H. ring.
  - rewrite H. field. lra.
Qed.

Lemma Nq_eq (a b : nat) : (Nq a == Nq b)%Q <-> a = b.
Proof.
  unfold Nq, Qeq. simpl. lia.
Qed.

Lemma filter_length_all {A} (f : A -> bool) (l : list A) :
  length (List.filter f l) = length l <-> Forall (fun x => f x = true) l.
Proof.
  induction l as [ | a l IH ]; simpl.
  - split; [ constructor | reflexivity ].
  - pose proof (filter_length_le f l) as Hle.
    destruct (f a) eqn:Ha; simpl.
    + rewrite Forall_cons. split.
      * intros H. split; [ exact Ha | apply IH; lia ].
      * intros [_ H]. f_equal. by apply IH.
    + split; [ lia | ]. intros H. apply Forall_cons in H as [H _].
      congruence.
Qed.

Lemma filter_length_none {A} (f : A -> bool) (l : list A) :
  length (List.filter f l) = 0%nat <-> Forall (fun x => f x = false) l.
Proof.
  induction l as [ | a l IH ]; simpl.
  - split; [ constructor | reflexivity ].
  - destruct (f a) eqn:Ha; simpl.
    + split; [ discriminate | ]. intros H. apply Forall_cons in H as [H _].
      congruence.
    + rewrite Forall_cons. rewrite IH. tauto.
Qed.

(** X22. For a log that is not empty, the success rate is 1 exactly
    when every entry succeeded and 0 exactly when none did. *)
Theorem success_rate_extremes (entries : list QueryActivityEntry) :
  entries <> [] ->
  exists q : Q,
    success_rate (summarizeQueryActivity entries) = Num q
    /\ ((q == 1)%Q <-> Forall (fun e => success e = true) entries)
    /\ ((q == 0)%Q <-> Forall (fun e => success e = false) entries).
Proof.
  intros Hne.
  change (success_rate (summarizeQueryActivity entries))
    with (if (length entries =? 0)%nat then Num 0
          else div (of_nat (length (List.filter success entries)))
                   (of_nat (length entries))).
  destruct (length entries =? 0)%nat eqn:Hlen.
  { apply Nat.eqb_eq in Hlen. by destruct entries. }
  apply Nat.eqb_neq in Hlen. rewrite div_of_nat by exact Hlen.
  eexists. split; [ reflexivity | ].
  pose proof (inject_nat_pos _ Hlen) as Hpos.
  fold (Nq (length (List.filter success entries))).
  fold (Nq (length entries)). fold (Nq (length entries)) in Hpos.
  split.
  - rewrite (ratio_one _ _ Hpos), Nq_eq. apply filter_length_all.
  - rewrite (ratio_zero _ _ Hpos). change 0%Q with (Nq 0).
    rewrite Nq_eq. apply filter_length_none.
Qed.

Lemma success_rate_extremes_witness :
  exists q : Q,
    success_rate (summarizeQueryActivity [Samples.answered; Samples.failed])
    = Num q
    /\ ((q == 1)%Q
        <-> Forall (fun e => success e = true)
                   [Samples.answered; Samples.failed])
    /\ ((q == 0)%Q
        <-> Forall (fun e => success e = false)
                   [Samples.answered; Samples.failed]).
Proof.
  apply (success_rate_extremes [Samples.answered; Samples.failed]).
  discriminate.
Defined.

(** *** The averages *)











End SummaryMore.

(* ===================================================================== *)
(** ** The REST client: the other calls                                   *)
(* ===================================================================== *)

Module ApiMoreFacts.
Import JS Api ApiMore ApiFacts Runs.

(** *** The shared [try]/[catch] *)

Lemma attempt_never_rejects {A : Type} (fetch : request -> fetch_result)
  (r : request) (failure : string) (process : value -> completion A)
  (warning : string) (delays : list Z) (fallback : A) :
  exists a : A,
    settled (attempt fetch r failure process warning delays fallback)
    = Return a.
Proof.
  unfold attempt. destruct (try_fetch_json fetch r failure) as [v | e].
  - destruct (process v); eexists; reflexivity.
  - eexists; reflexivity.
Qed.

Lemma attempt_failed {A : Type} (fetch : request -> fetch_result)
  (r : request) (failure : string) (process : value -> completion A)
  (warning : string) (delays : list Z) (fallback : A) :
  call_failed (fetch r) || unreadable (fetch r) = true ->
  settled (attempt fetch r failure process warning delays fallback)
  = Return fallback.
Proof.
  intros Hfail. unfold attempt.
  by destruct (try_fetch_json_failed fetch r failure Hfail) as [e ->].
Qed.

(** *** [getSystemConfig] and [normalizeSystemConfig] *)

(** X9. Whatever the network does and whatever JSON the backend sends,
    [getSystemConfig] fulfils with a well-typed [SystemConfig]; when the
    call fails or its answer cannot be read, with [mockConfig] itself. *)
Theorem getSystemConfig_well_typed (fetch : request -> fetch_result) :
  exists v : value,
    settled (getSystemConfig fetch) = Return v
    /\ is_SystemConfig v = true
    /\ (call_failed (fetch (get_request "/config"))
        || unreadable (fetch (get_request "/config")) = true ->
        v = mockConfig).
Proof.
  unfold getSystemConfig, attempt.
  destruct (try_fetch_json fetch (get_request "/config")
              "Config fetch failed: ") as [v | e] eqn:Htry.
  - exists (normalizeSystemConfig v). split; [ reflexivity | ].
    split; [ apply normalizeSystemConfig_typed | ].
    intros Hfail.
    destruct (try_fetch_json_failed fetch _ "Config fetch failed: " Hfail)
      as [e He].
    congruence.
  - exists mockConfig. repeat split.
Qed.

Lemma if_typeof_again (t : string) (x d d' : value) :
  typeof d = t -> if_typeof t (if_typeof t x d) d' = if_typeof t x d.
Proof.
  intros Hd. unfold if_typeof.
  destruct (String.eqb (typeof x) t) eqn:Hx.
  - by rewrite Hx.
  - by rewrite Hd, String.eqb_refl.
Qed.

Lemma filter_again {A} (f : A -> bool) (l : list A) :
  List.filter f (List.filter f l) = List.filter f l.
Proof.
  induction l as [ | a l IH ]; simpl; [ reflexivity | ].
  destruct (f a) eqn:Ha; simpl; [ rewrite Ha; by f_equal | exact IH ].
Qed.

(** X10. [normalizeSystemConfig] is idempotent: normalising a normalised
    configuration changes nothing. *)
Theorem normalizeSystemConfig_idempotent (raw : value) :
  normalizeSystemConfig (normalizeSystemConfig raw)
  = normalizeSystemConfig raw.
Proof.
  unfold normalizeSystemConfig at 2 3.
  destruct (negb (truthy raw) || negb (String.eqb (typeof raw) "object"));
    [ reflexivity | ].
  unfold normalizeSystemConfig.
  cbn [truthy typeof negb orb String.eqb Ascii.eqb Bool.eqb get lookup_prop].
  rewrite !if_typeof_again by reflexivity.
  do 2 f_equal. f_equal. f_equal.
  destruct (get raw "language_models") as [ | | | | | items | ].
  6: by rewrite filter_again.
  all: destruct (is_model_name (get raw "language_model")) eqn:Hm;
    [ cbn [List.filter]; by rewrite Hm | reflexivity ].
Qed.

(** *** The history calls *)

(** X11. While the backend cannot be reached, [clearQueryHistory] and
    [deleteQueryFromHistory] say so: each fulfils with a report whose
    success flag is false. *)
Theorem history_deletes_report_failure (queryId : string)
  (fetch : request -> fetch_result) :
  (forall r, call_failed (fetch r) = true) ->
  exists v1 v2 : value,
    settled (clearQueryHistory fetch) = Return v1
    /\ get v1 "success" = VBool false
    /\ get v1 "message" = VString "Failed to clear history"
    /\ settled (deleteQueryFromHistory queryId fetch) = Return v2
    /\ get v2 "success" = VBool false
    /\ get v2 "message" = VString "Failed to delete query".
Proof.
  intros Hdown. eexists _, _.
  unfold clearQueryHistory, deleteQueryFromHistory.
  rewrite !attempt_failed by (by rewrite Hdown).
  repeat split.
Qed.

Lemma history_deletes_report_failure_witness :
  exists v1 v2 : value,
    settled (clearQueryHistory (fun _ => NetworkFailure TypeError))
    = Return v1
    /\ get v1 "success" = VBool false
    /\ get v1 "message" = VString "Failed to clear history"
    /\ settled (deleteQueryFromHistory "42"
                  (fun _ => NetworkFailure TypeError)) = Return v2
    /\ get v2 "success" = VBool false
    /\ get v2 "message" = VString "Failed to delete query".
Proof.
  apply (history_deletes_report_failure "42"
           (fun _ => NetworkFailure TypeError)).
  reflexivity.
Defined.


(** *** Documents *)



Lemma has_id_id (i : string) (d : DocumentRecord) :
  has_id i d = true -> id d = VString i.
Proof.
  unfold has_id. destruct (id d); try discriminate.
  intros H. apply String.eqb_eq in H. by subst.
Qed.

Lemma remove_first_filter (i : string) (mock : list DocumentRecord) :
  NoDup (map id mock) ->
  remove_first (has_id i) mock
  = List.filter (fun d => negb (has_id i d)) mock.
Proof.
  induction mock as [ | a rest IH ]; simpl; [ reflexivity | ].
  intros Hnd. apply NoDup_cons in Hnd as [Ha Hnd].
  destruct (has_id i a) eqn:Hia; simpl.
  - symmetry. apply ActivityLogFacts.filter_all.
    apply Forall_forall. intros d Hd.
    destruct (has_id i d) eqn:Hid; [ | reflexivity ].
    exfalso. apply Ha. apply has_id_id in Hia, Hid.
    rewrite Hia, <- Hid. apply list_elem_of_In, in_map.
    by apply list_elem_of_In.
  - f_equal. by apply IH.
Qed.

Lemma filter_NoDup_ids (p : DocumentRecord -> bool)
  (mock : list DocumentRecord) :
  NoDup (map id mock) -> NoDup (map id (List.filter p mock)).
Proof.
  induction mock as [ | a rest IH ]; simpl; [ done | ].
  intros Hnd. apply NoDup_cons in Hnd as [Ha Hnd].
  destruct (p a); simpl; [ | by apply IH ].
  apply NoDup_cons. split; [ | by apply IH ].
  intros Hin. apply Ha. apply list_elem_of_In, in_map_iff in Hin
    as (d & Hd & Hin).
  apply filter_In in Hin as [Hin _].
  apply list_elem_of_In. rewrite <- Hd. by apply in_map.
Qed.

Lemma deleteDocument_down (i : string) (fetch : request -> fetch_result)
  (mock : list DocumentRecord) :
  (forall r, call_failed (fetch r) = true) ->
  deleteDocument i fetch mock
  = ({| trace := trace (fst (deleteDocument i fetch mock));
        settled := Return deleted_report |},
     remove_first (has_id i) mock).
Proof.
  intros Hdown. unfold deleteDocument.
  destruct (try_fetch_json_failed fetch (delete_request ("/documents/" ++ i))
              "Delete failed: ") as [e ->]; [ by rewrite Hdown | ].
  reflexivity.
Qed.

Lemma delete_all_filter (ids : list string) (fetch : request -> fetch_result)
  (mock : list DocumentRecord) :
  (forall r, call_failed (fetch r) = true) ->
  NoDup (map id mock) ->
  delete_all ids fetch mock
  = List.filter (fun d => negb (existsb (fun i => has_id i d) ids)) mock.
Proof.
  intros Hdown. revert mock. unfold delete_all.
  induction ids as [ | i ids IH ]; intros mock Hnd; cbn [fold_left existsb].
  - symmetry. apply ActivityLogFacts.filter_all. by apply Forall_forall.
  - rewrite (deleteDocument_down i fetch mock Hdown). cbn [snd].
    rewrite (remove_first_filter i mock Hnd).
    rewrite IH by (by apply filter_NoDup_ids).
    clear. induction mock as [ | d rest IHm ]; simpl; [ reflexivity | ].
    destruct (has_id i d); simpl; [ exact IHm | ].
    destruct (existsb (fun i0 => has_id i0 d) ids); simpl;
      [ exact IHm | by f_equal ].
Qed.

(** X14. Mock mode keeps its own books. While the backend cannot be
    reached and the mock documents have distinct ids, every
    [deleteDocument] reports success, whether or not the id exists;
    after deleting a list of ids one by one, [getDocuments] shows the
    mock documents whose id is none of them, in their old order. *)
Theorem mock_deletions_accumulate (ids : list string)
  (fetch : request -> fetch_result) (mock : list DocumentRecord) :
  (forall r, call_failed (fetch r) = true) ->
  NoDup (map id mock) ->
  (forall i m, exists v,
      settled (fst (deleteDocument i fetch m)) = Return v
      /\ get v "success" = VBool true)
  /\ settled (getDocuments fetch (delete_all ids fetch mock))
     = Return (List.filter
                 (fun d => negb (existsb (fun i => has_id i d) ids)) mock).
Proof.
  intros Hdown Hnd. split.
  - intros i m. rewrite (deleteDocument_down i fetch m Hdown).
    exists deleted_report. split; reflexivity.
  - unfold getDocuments. rewrite attempt_failed by (by rewrite Hdown).
    by rewrite delete_all_filter.
Qed.

Lemma mock_deletions_accumulate_witness :
  (forall i m, exists v,
      settled (fst (deleteDocument i (fun _ => NetworkFailure TypeError) m))
      = Return v
      /\ get v "success" = VBool true)
  /\ settled (getDocuments (fun _ => NetworkFailure TypeError)
                (delete_all ["2"; "7"; "2"]
                            (fun _ => NetworkFailure TypeError)
                            (mockDocuments 0)))
     = Return (List.filter
                 (fun d => negb (existsb (fun i => has_id i d)
                                         ["2"; "7"; "2"]))
                 (mockDocuments 0)).
Proof.
  apply (mock_deletions_accumulate ["2"; "7"; "2"]
           (fun _ => NetworkFailure TypeError) (mockDocuments 0)).
  - reflexivity.
  - unfold mockDocuments. cbn [map id].
    repeat (apply NoDup_cons_2;
            [ intros H;
              repeat (apply elem_of_cons in H as [H | H];
                      [ discriminate H | ]);
              by apply elem_of_nil in H | ]).
    apply NoDup_nil_2.
Defined.

(** *** Ingestion *)

Lemma try_upload_failed (fetch : form_request -> fetch_result)
  (r : form_request) (failure : string) :
  call_failed (fetch r) = true ->
  exists e : error, try_upload fetch r failure = Throw e.
Proof.
  unfold try_upload, call_failed.
  destruct (fetch r) as [e | ok statusText payload]; intros H.
  - by exists e.
  - destruct ok; [ discriminate | ]. eexists. reflexivity.
Qed.

Lemma mock_chunks_range (r : Q) :
  (0 <= r)%Q -> (r < 1)%Q -> (10 <= mock_chunks r <= 59)%Z.
Proof.
  intros H0 H1. unfold mock_chunks.
  assert (Hlo : (0 <= Qfloor (r * 50))%Z).
  { rewrite <- (Qfloor_Z 0). apply Qfloor_resp_le.
    change (inject_Z 0) with 0%Q. lra. }
  assert (Hhi : (Qfloor (r * 50) < 50)%Z).
  { rewrite Zlt_Qlt. pose proof (Qfloor_le (r * 50)) as Hf.
    change (inject_Z 50) with 50%Q. lra. }
  lia.
Qed.

(** X15. When the upload fails, [ingestDocument] still reports success,
    for the file's own name, with a made-up chunk count that lies
    between 10 and 59 whatever [Math.random()] draws in [0, 1). *)
Theorem ingestDocument_mock_chunks (file : File) (random : Q)
  (fetch : form_request -> fetch_result) :
  (0 <= random)%Q -> (random < 1)%Q ->
  (forall r, call_failed (fetch r) = true) ->
  exists (v : value) (c : Z),
    upload_settled (ingestDocument file random fetch) = Return v
    /\ get v "success" = VBool true
    /\ get v "filename" = VString (name file)
    /\ get v "chunks_created" = num c
    /\ (10 <= c <= 59)%Z.
Proof.
  intros H0 H1 Hdown. unfold ingestDocument.
  destruct (try_upload_failed fetch
              {| form_url := API_BASE_URL ++ "/ingest";
                 form_method := "POST";
                 form_data := [("file", file)] |}
              "Ingestion failed: " (Hdown _)) as [e ->].
  eexists _, (mock_chunks random). repeat split;
    by apply mock_chunks_range.
Qed.

Lemma ingestDocument_mock_chunks_witness :
  exists (v : value) (c : Z),
    upload_settled
      (ingestDocument
         {| name := "report.pdf"; file_size := Num 2048;
            type := "application/pdf" |}
         (999 # 1000) (fun _ => NetworkFailure TypeError)) = Return v
    /\ get v "success" = VBool true
    /\ get v "filename" = VString "report.pdf"
    /\ get v "chunks_created" = num c
    /\ (10 <= c <= 59)%Z.
Proof.
  apply (ingestDocument_mock_chunks
           {| name := "report.pdf"; file_size := Num 2048;
              type := "application/pdf" |}
           (999 # 1000) (fun _ => NetworkFailure TypeError)).
  - discriminate.
  - reflexivity.
  - reflexivity.
Defined.

Lemma mock_results_lookup (files : list File) (random : nat -> Q)
  (i : nat) :
  mock_results files random !! i
  = (fun file => mock_result file (random i)) <$> files !! i.
Proof. unfold mock_results. by rewrite list_lookup_imap. Qed.

(** X16. When the batch upload fails, [ingestDocumentsBatch] answers a
    report that adds up: total and successful are the number of files,
    failed is 0, and results holds one success per file, in order, each
    with the file's name and a chunk count between 10 and 59. *)
Theorem ingestDocumentsBatch_mock_adds_up (files : list File)
  (random : nat -> Q) (fetch : form_request -> fetch_result) :
  (forall i, (0 <= random i)%Q /\ (random i < 1)%Q) ->
  (forall r, call_failed (fetch r) = true) ->
  exists (v : value) (results : list value),
    upload_settled (ingestDocumentsBatch files random fetch) = Return v
    /\ get v "total" = of_nat_value (length files)
    /\ get v "successful" = of_nat_value (length files)
    /\ get v "failed" = num 0
    /\ get v "results" = VArray results
    /\ length results = length files
    /\ forall i file, files !! i = Some file ->
       exists (res : value) (c : Z),
         results !! i = Some res
         /\ get res "filename" = VString (name file)
         /\ get res "status" = VString "success"
         /\ get res "success" = VBool true
         /\ get res "chunks_created" = num c
         /\ (10 <= c <= 59)%Z.
Proof.
  intros Hrandom Hdown. unfold ingestDocumentsBatch.
  destruct (try_upload_failed fetch
              {| form_url := API_BASE_URL ++ "/ingest/batch";
                 form_method := "POST";
                 form_data := map (fun file => ("files", file)) files |}
              "Batch ingestion failed: " (Hdown _)) as [e ->].
  eexists _, (mock_results files random).
  split; [ reflexivity | ]. repeat (split; [ reflexivity | ]).
  split; [ unfold mock_results; by rewrite length_imap | ].
  intros i file Hfile.
  exists (mock_result file (random i)), (mock_chunks (random i)).
  split; [ by rewrite mock_results_lookup, Hfile | ].
  repeat (split; [ reflexivity | ]).
  destruct (Hrandom i). by apply mock_chunks_range.
Qed.

Lemma ingestDocumentsBatch_mock_adds_up_witness :
  exists (v : value) (results : list value),
    upload_settled
      (ingestDocumentsBatch
         [ {| name := "a.pdf"; file_size := Num 1; type := "" |};
           {| name := "b.txt"; file_size := Num 2; type := "text/plain" |} ]
         (fun _ => (1 # 2)%Q)
         (fun _ => Response false "Bad Gateway" Malformed)) = Return v
    /\ get v "total" = of_nat_value 2
    /\ get v "successful" = of_nat_value 2
    /\ get v "failed" = num 0
    /\ get v "results" = VArray results
    /\ length results = 2%nat
    /\ forall i file,
       [ {| name := "a.pdf"; file_size := Num 1; type := "" |};
         {| name := "b.txt"; file_size := Num 2; type := "text/plain" |} ]
         !! i = Some file ->
       exists (res : value) (c : Z),
         results !! i = Some res
         /\ get res "filename" = VString (name file)
         /\ get res "status" = VString "success"
         /\ get res "success" = VBool true
         /\ get res "chunks_created" = num c
         /\ (10 <= c <= 59)%Z.
Proof.
  apply (ingestDocumentsBatch_mock_adds_up
           [ {| name := "a.pdf"; file_size := Num 1; type := "" |};
             {| name := "b.txt"; file_size := Num 2; type := "text/plain" |} ]
           (fun _ => (1 # 2)%Q)
           (fun _ => Response false "Bad Gateway" Malformed)).
  - intros i. split; [ discriminate | reflexivity ].
  - reflexivity.
Defined.

(** *** Every call settles by fulfilling *)

(** X17. No call of the service layer rejects, whatever the network
    does and whatever the backend sends: the status, metrics, statistics
    and history calls, the deletions and the uploads all fulfil. *)
Theorem service_layer_never_rejects (fetch : request -> fetch_result)
  (upload : form_request -> fetch_result) (ToString : number -> string)
  (limit : option number) (queryId docId : string)
  (mock : list DocumentRecord) (file : File) (files : list File)
  (random : Q) (randoms : nat -> Q) :
  (exists v, settled (getSystemStatus fetch) = Return v)
  /\ (exists v, settled (getQueryMetricsStats fetch) = Return v)
  /\ (exists v, settled (getDataStats fetch) = Return v)
  /\ (exists v, settled (getQueryHistory ToString limit fetch) = Return v)
  /\ (exists v, settled (clearQueryHistory fetch) = Return v)
  /\ (exists v, settled (deleteQueryFromHistory queryId fetch) = Return v)
  /\ (exists v, settled (fst (deleteDocument docId fetch mock)) = Return v)
  /\ (exists v, upload_settled (ingestDocument file random upload) = Return v)
  /\ (exists v,
         upload_settled (ingestDocumentsBatch files randoms upload)
         = Return v).
Proof.
  repeat (split; [ apply attempt_never_rejects | ]).
  split.
  { unfold deleteDocument. destruct (try_fetch_json _ _ _);
      eexists; reflexivity. }
  split.
  - unfold ingestDocument. destruct (try_upload _ _ _); eexists; reflexivity.
  - unfold ingestDocumentsBatch. destruct (try_upload _ _ _);
      eexists; reflexivity.
Qed.

Lemma queryRAG_passes_answer_witness :
  settled (queryRAG "What is the energy capacity?" None None None None
             (fun _ => Response true "OK" (Document JNull)))
  = Return (of_json JNull).
Proof.
  apply (queryRAG_passes_answer "What is the energy capacity?" None None
           None None (fun _ => Response true "OK" (Document JNull)) "OK").
  reflexivity.
Defined.

End ApiMoreFacts.

(* ===================================================================== *)
(** ** The pages                                                          *)
(* ===================================================================== *)

Module PagesFacts.
Import JS ApiMore Pages.

(** *** [escapeMdCell] *)









(** *** [toggleDocumentSelection] *)

Lemma existsb_eqb_In (x : string) (l : list string) :
  existsb (String.eqb x) l = true <-> In x l.
Proof.
  rewrite existsb_exists. split.
  - intros (y & Hy & Heq). apply String.eqb_eq in Heq. by subst.
  - intros H. exists x. split; [ exact H | apply String.eqb_refl ].
Qed.

Lemma In_filter_other (x docId : string) (l : list string) :
  In x (List.filter (fun id0 => negb (String.eqb id0 docId)) l)
  <-> In x l /\ x <> docId.
Proof.
  rewrite filter_In, negb_true_iff, String.eqb_neq. tauto.
Qed.

Lemma filter_other_absent (docId : string) (l : list string) :
  ~ In docId l ->
  List.filter (fun id0 => negb (String.eqb id0 docId)) l = l.
Proof.
  intros H. apply ActivityLogFacts.filter_all, Forall_forall.
  intros x Hx. apply negb_true_iff, String.eqb_neq. intros ->.
  apply H. by apply list_elem_of_In.
Qed.

(** X19. Toggling a document flips its selection and no other: the
    document is selected afterwards exactly when it was not before, every
    other id keeps its state, a selection without repeats stays so, and
    toggling twice a document that was not selected restores the
    selection as it was. *)
Theorem toggleDocumentSelection_flips (docId : string) (prev : list string) :
  (In docId (toggleDocumentSelection docId prev) <-> ~ In docId prev)
  /\ (forall other, other <> docId ->
      (In other (toggleDocumentSelection docId prev) <-> In other prev))
  /\ (NoDup prev -> NoDup (toggleDocumentSelection docId prev))
  /\ (~ In docId prev ->
      toggleDocumentSelection docId (toggleDocumentSelection docId prev)
      = prev).
Proof.
  unfold toggleDocumentSelection.
  destruct (existsb (String.eqb docId) prev) eqn:Hsel.
  - apply existsb_eqb_In in Hsel. repeat split.
    + intros Hin. apply In_filter_other in Hin. tauto.
    + tauto.
    + intros Hin. apply In_filter_other in Hin. tauto.
    + intros Hin. apply In_filter_other. tauto.
    + intros Hnd. apply (sublist_NoDup _ prev); [ exact Hnd | ].
      clear. induction prev as [ | a l IH ]; simpl; [ constructor | ].
      destruct (negb (String.eqb a docId)); by constructor.
    + tauto.
  - assert (Hout : ~ In docId prev).
    { intros Hin. apply existsb_eqb_In in Hin. congruence. }
    repeat split.
    + tauto.
    + intros _. apply in_app_iff. right. by left.
    + intros Hin. apply in_app_iff in Hin as [Hin | [Hin | []]]; congruence.
    + intros Hin. apply in_app_iff. by left.
    + intros Hnd. apply NoDup_app. split; [ exact Hnd | ]. split.
      * intros x Hx Hx'. apply list_elem_of_singleton in Hx' as ->.
        apply Hout. by apply list_elem_of_In.
      * apply NoDup_singleton.
    + intros _.
      assert (Hin : existsb (String.eqb docId) (prev ++ [docId]) = true).
      { apply existsb_eqb_In, in_app_iff. right. by left. }
      rewrite Hin, List.filter_app, (filter_other_absent docId prev Hout).
      cbn. rewrite String.eqb_refl. cbn. apply app_nil_r.
Qed.

(** *** The selected files *)

Lemma name_known (f : File) (l : list File) :
  existsb (String.eqb (name f)) (map name l) = true <-> In (name f) (map name l).
Proof. apply existsb_eqb_In. Qed.

Lemma nothing_new (incoming : list File) (known : list string) :
  (forall f, In f incoming -> In (name f) known) ->
  List.filter (fun f => negb (existsb (String.eqb (name f)) known)) incoming
  = [].
Proof.
  induction incoming as [ | f rest IH ]; intros Hall; [ reflexivity | ].
  cbn [List.filter].
  assert (Hf : existsb (String.eqb (name f)) known = true).
  { apply existsb_eqb_In, Hall. by left. }
  rewrite Hf. cbn [negb]. apply IH. intros g Hg. apply Hall. by right.
Qed.

(** X20. Adding files to the selection goes by name: the files selected
    before stay first and in order, every incoming file's name is
    selected afterwards, and adding the same files again adds nothing. *)
Theorem add_files_by_name (incoming prev : list File) :
  (exists added, add_files incoming prev = prev ++ added
                 /\ forall f, In f added ->
                      In f incoming /\ ~ In (name f) (map name prev))
  /\ (forall f, In f incoming ->
      In (name f) (map name (add_files incoming prev)))
  /\ add_files incoming (add_files incoming prev) = add_files incoming prev.
Proof.
  unfold add_files. cbv zeta.
  set (added := List.filter
                  (fun f => negb (existsb (String.eqb (name f))
                                          (map name prev))) incoming).
  assert (Hadded : forall f, In f added <->
                     In f incoming /\ ~ In (name f) (map name prev)).
  { intros f. unfold added. rewrite filter_In, negb_true_iff.
    rewrite <- name_known. destruct (existsb _ _); split;
      intros [? ?]; split; congruence. }
  assert (Hall : forall f, In f incoming ->
                   In (name f) (map name (prev ++ added))).
  { intros f Hf. rewrite map_app, in_app_iff.
    destruct (existsb (String.eqb (name f)) (map name prev)) eqn:Hk.
    - left. by apply name_known.
    - right. apply in_map, Hadded. split; [ exact Hf | ].
      intros H. apply name_known in H. congruence. }
  split; [ exists added; split; [ reflexivity | apply Hadded ] | ].
  split; [ exact Hall | ].
  rewrite (nothing_new incoming (map name (prev ++ added)) Hall).
  apply app_nil_r.
Qed.

End PagesFacts.
